(** * vscode-version-watcher: a shallow embedding of the watcher pipeline

    The repository has two entry points.  [src/index.ts] is the plain
    pipeline (tags, version resolution, report, snapshot);
    [src/unnamed/part_000] is the later one, which adds the [master]
    candidate, the alert level, the issue table and the tweet.  The
    functions [githubRequest], [getElectron], [getChromeVersion] and
    [getNodeVersion] are textually the same in both files and are embedded
    once; the functions that differ are embedded from [part_000] at top
    level and from [index.ts] inside [Module IndexTs].

    Conventions.
    - A JavaScript string is a Rocq [string]; one [ascii] stands for one
      UTF-16 code unit, so the model covers strings whose code units are
      below 256 (version numbers, URIs and the scraped header files are).
    - [undefined] is [None]; a field of type [string|undefined] is an
      [option string].
    - Asynchronous code is sequential here: every [await] is awaited before
      the next statement runs, so a promise is the computation itself.
    - The network, the environment, the clock and the cached
      [version.json] are a read-only [World]; what the program changes
      (requests issued, console, the [tweet] accumulator, files, posts) is
      the [State] threaded through the monad [M]. *)

From Stdlib Require Import ZArith Ascii String List Bool Lia DecimalString.
From stdpp Require Import base option list gmap strings.

Local Open Scope string_scope.
Local Open Scope list_scope.

(** ** Strings *)

Module Str.

(** Characters that cannot be written inside a Rocq string literal. *)
Definition dq : ascii := "034"%char.
Definition nl : ascii := "010"%char.
Definition bq : ascii := "096"%char.

Definition DQ : string := String dq "".
Definition NL : string := String nl "".
Definition BQ : string := String bq "".

(** [a > b] on two strings: comparison of the code-unit sequences. *)
Definition gt (a b : string) : bool :=
  match String.compare a b with
  | Gt => true
  | _ => false
  end.

(** [s.split(c)] for a one-character separator [c]. *)
Fixpoint split_go (c : ascii) (cur : string) (s : string) : list string :=
  match s with
  | EmptyString => [String.rev cur]
  | String x s' =>
      if Ascii.eqb x c then String.rev cur :: split_go c "" s'
      else split_go c (String x cur) s'
  end.

Definition split (c : ascii) (s : string) : list string := split_go c "" s.

(** Truthiness of a string value and of a possibly undefined one. *)
Definition truthy (s : string) : bool := negb (String.eqb s "").

Definition truthy_opt (o : option string) : bool :=
  match o with
  | Some s => truthy s
  | None => false
  end.

(** [`${x}`] for [x : string|undefined]. *)
Definition interp (o : option string) : string :=
  match o with
  | Some s => s
  | None => "undefined"
  end.

(** [x || d] for [x : string|undefined] and a string [d]. *)
Definition or_else (o : option string) (d : string) : string :=
  match o with
  | Some s => if truthy s then s else d
  | None => d
  end.

Fixpoint take (n : nat) (s : string) : string :=
  match n, s with
  | S n', String c s' => String c (take n' s')
  | _, _ => ""
  end.

Fixpoint drop (n : nat) (s : string) : string :=
  match n, s with
  | S n', String _ s' => drop n' s'
  | _, _ => s
  end.

Fixpoint all (p : ascii -> bool) (s : string) : bool :=
  match s with
  | EmptyString => true
  | String c s' => p c && all p s'
  end.

(** Decimal rendering of a length, for [`${issueList.length}`]. *)
Definition of_nat (n : nat) : string :=
  NilEmpty.string_of_uint (Nat.to_uint n).

End Str.

(** ** Regular expressions

    The patterns of the source only repeat single-character classes (a
    digit, a space or any character, starred or plussed), so repetition
    is over a class.  The matcher is a backtracking one with the
    priorities of the JavaScript engine: a greedy repetition tries the
    longest run first, a lazy one the shortest, an alternative its left
    branch first, an optional group its body first.  The first result in
    that order is the match. *)

Module Regex.

Definition charset := ascii -> bool.

Definition code (c : ascii) : N := N_of_ascii c.

(** [\d] *)
Definition digit : charset := fun c => ((48 <=? code c) && (code c <=? 57))%N.

(** [\s], on code units below 256 *)
Definition space : charset := fun c =>
  ((9 <=? code c) && (code c <=? 13) || (code c =? 32) || (code c =? 160))%N.

(** [.]: everything but a line terminator *)
Definition dot : charset := fun c =>
  negb ((code c =? 10) || (code c =? 13))%N.

Inductive regex : Type :=
| Empty
| Char (c : ascii)
| Class (p : charset)
| Cat (r1 r2 : regex)
| Alt (r1 r2 : regex)
| Opt (r : regex)
| Star (greedy : bool) (p : charset)
| Group (i : nat) (r : regex)
| Bol
| Eol.

(** [p+] *)
Definition Plus (p : charset) : regex := Cat (Class p) (Star true p).

Fixpoint Lit (s : string) : regex :=
  match s with
  | EmptyString => Empty
  | String c s' => Cat (Char c) (Lit s')
  end.

Fixpoint Seq (rs : list regex) : regex :=
  match rs with
  | [] => Empty
  | r :: rs' => Cat r (Seq rs')
  end.

(** Matcher state: the index reached, the input left, the groups set. *)
Record mstate : Type := MState {
  m_pos : nat;
  m_rest : string;
  m_caps : gmap nat string
}.

Definition step (st : mstate) (s' : string) : mstate :=
  MState (S (m_pos st)) s' (m_caps st).

Definition set_cap (i : nat) (from : mstate) (st : mstate) : mstate :=
  MState (m_pos st) (m_rest st)
    (<[i := Str.take (m_pos st - m_pos from) (m_rest from)]> (m_caps st)).

Fixpoint star_greedy (p : charset) (pos : nat) (s : string)
    (k : nat -> string -> option mstate) : option mstate :=
  match s with
  | String c s' =>
      if p c then
        match star_greedy p (S pos) s' k with
        | Some r => Some r
        | None => k pos s
        end
      else k pos s
  | EmptyString => k pos s
  end.

Fixpoint star_lazy (p : charset) (pos : nat) (s : string)
    (k : nat -> string -> option mstate) : option mstate :=
  match k pos s with
  | Some r => Some r
  | None =>
      match s with
      | String c s' => if p c then star_lazy p (S pos) s' k else None
      | EmptyString => None
      end
  end.

Fixpoint run (r : regex) (st : mstate) (k : mstate -> option mstate)
    : option mstate :=
  match r with
  | Empty => k st
  | Char c =>
      match m_rest st with
      | String x s' => if Ascii.eqb x c then k (step st s') else None
      | EmptyString => None
      end
  | Class p =>
      match m_rest st with
      | String x s' => if p x then k (step st s') else None
      | EmptyString => None
      end
  | Cat r1 r2 => run r1 st (fun st' => run r2 st' k)
  | Alt r1 r2 =>
      match run r1 st k with
      | Some res => Some res
      | None => run r2 st k
      end
  | Opt r1 =>
      match run r1 st k with
      | Some res => Some res
      | None => k st
      end
  | Star greedy p =>
      (if greedy then star_greedy else star_lazy) p (m_pos st) (m_rest st)
        (fun pos s => k (MState pos s (m_caps st)))
  | Group i r1 => run r1 st (fun st' => k (set_cap i st st'))
  | Bol => if Nat.eqb (m_pos st) 0 then k st else None
  | Eol =>
      match m_rest st with
      | EmptyString => k st
      | String _ _ => None
      end
  end.

(** One attempt at index [pos]; group 0 is the whole match. *)
Definition attempt (r : regex) (pos : nat) (s : string) : option mstate :=
  run (Group 0 r) (MState pos s ∅) Some.

(** Leftmost match at or after [pos]: the start index and the end state. *)
Fixpoint search_from (r : regex) (pos : nat) (s : string)
    : option (nat * mstate) :=
  match attempt r pos s with
  | Some st => Some (pos, st)
  | None =>
      match s with
      | String _ s' => search_from r (S pos) s'
      | EmptyString => None
      end
  end.

(** [re.test(s)] *)
Definition test (r : regex) (s : string) : bool :=
  match search_from r 0 s with
  | Some _ => true
  | None => false
  end.

(** [s.match(re)] without the [g] flag: [None] is [null], otherwise the
    array of groups, index 0 being the whole match. *)
Definition exec (r : regex) (s : string) : option (gmap nat string) :=
  match search_from r 0 s with
  | Some (_, st) => Some (m_caps st)
  | None => None
  end.

(** [s.replace(re, by)] with the [g] flag, [by] without [$] patterns.
    [fuel] bounds the number of characters and matches handled; an
    empty match copies one character and moves on. *)
Fixpoint replace_go (fuel : nat) (r : regex) (by_ : string)
    (pos : nat) (s : string) : string :=
  match fuel with
  | O => s
  | S fuel' =>
      match attempt r pos s with
      | Some st =>
          if Nat.eqb (m_pos st) pos then
            match s with
            | String c s' => by_ +:+ String c (replace_go fuel' r by_ (S pos) s')
            | EmptyString => by_
            end
          else by_ +:+ replace_go fuel' r by_ (m_pos st) (m_rest st)
      | None =>
          match s with
          | String c s' => String c (replace_go fuel' r by_ (S pos) s')
          | EmptyString => ""
          end
      end
  end.

Definition replace_all (r : regex) (by_ : string) (s : string) : string :=
  replace_go (S (String.length s)) r by_ 0 s.

End Regex.

(** ** Data model *)

(** [interface Tag] *)
Record Tag : Type := { name : string }.

(** [interface VSCode] *)
Record VSCode : Type := {
  vscode : string;
  electron : option string;
  node : option string;
  chrome : option string
}.

(** [interface Issue]; the nested [user] object has its own [html_url],
    called [user_html_url] here. *)
Record User : Type := { login : string; user_html_url : string }.

Record Issue : Type := {
  html_url : string;
  title : string;
  body : string;
  created_at : string;
  updated_at : string;
  user : User
}.

(** What the requests answer, typed as the call sites cast it. *)
Record Page : Type := {
  link : option string;          (* response.headers['link'] *)
  page_body : list Tag
}.

Record Package : Type := { electronVersion : option string }.

(** What the two raw files requested with [json: true] come to.  Such a
    body is parsed as JSON when it can be and handed over as text when it
    cannot; an empty body comes as [undefined].  Of the manifest the code
    reads one property, which throws on [undefined] and [null] and gives
    [undefined] on a string, a number and the like; where an object has
    the property it is taken to be a string, as the cast of the source
    says.  Of the build configuration the code calls [match], which only
    a string has. *)
Inductive Manifest : Type :=
| Nullish                        (* [undefined] or [null] *)
| Holds (pkg : Package).         (* any other value, read through its property *)

Inductive Yarnrc : Type :=
| IsText (s : string)            (* a string *)
| NotText.                       (* [undefined], a number, an object, ... *)

Record Submodule : Type := { sha : option string }.

Record IssueSearch : Type := { items : list Issue }.

Record Env : Type := {
  GITHUB_CLIENT_ID : option string;
  GITHUB_CLIENT_SECRET : option string;
  TWEET_ENDPOINT : option string
}.

(** The surroundings of one run.  A request answered [None] is one that
    fails (transport error or a status outside 2xx): [request] rejects.
    An answer outside 2xx still has its headers, and the [transform]
    callback of [githubRequest] reads them: [refused_link] is the [link]
    header of such an answer to a request for tags, [None] when there is
    no answer at all or no such header. *)
Record World : Type := {
  env : Env;
  VERSION : list VSCode;                       (* require('../version.json') *)
  now : string;                                (* new Date().toISOString() *)
  get_tags : string -> option Page;
  refused_link : string -> option string;
  get_package : string -> option Manifest;
  get_yarnrc : string -> option Yarnrc;
  get_text : string -> option string;
  get_submodule : string -> option Submodule;
  get_issues : string -> option IssueSearch
}.

Inductive File : Type :=
| Text (s : string)
| Json (l : list VSCode).       (* JSON.stringify of a VSCode[] *)

(** What [https.request] was given and what was written to it. *)
Record Post : Type := {
  hostname : string;
  path : string;
  content_length : nat;
  written : string
}.

Record State : Type := {
  requests : list string;        (* GET requests issued, oldest first *)
  console : list string;
  tweet : string;
  files : gmap string File;
  posts : list Post
}.

Definition initial : State := {|
  requests := [];
  console := [];
  tweet := "#VSCodeWatcher ";
  files := ∅;
  posts := []
|}.

(** What a run can end in: the rejection of the request for [uri], for
    want of an answer or for its status; the rejection of the request for
    [uri] because its [transform] callback threw [cause]; a [TypeError]. *)
Inductive exn : Type :=
| RequestError (uri : string)
| TransformError (uri : string) (cause : exn)
| TypeError.

Inductive outcome (A : Type) : Type :=
| Ret (a : A)
| Throw (e : exn)
| OutOfFuel.

Arguments Ret {A} a.
Arguments Throw {A} e.
Arguments OutOfFuel {A}.

(** ** The monad: state, exceptions and fuel *)

Definition M (A : Type) : Type := State -> outcome A * State.

Definition ret {A} (a : A) : M A := fun st => (Ret a, st).

Definition throw {A} (e : exn) : M A := fun st => (Throw e, st).

Definition bind {A B} (m : M A) (k : A -> M B) : M B :=
  fun st =>
    match m st with
    | (Ret a, st') => k a st'
    | (Throw e, st') => (Throw e, st')
    | (OutOfFuel, st') => (OutOfFuel, st')
    end.

Notation "x <- m ;; k" := (bind m (fun x => k))
  (at level 100, m at next level, right associativity).
Notation "m ;; k" := (bind m (fun _ => k))
  (at level 100, right associativity).

Definition modify (f : State -> State) : M unit := fun st => (Ret tt, f st).

Definition get_state : M State := fun st => (Ret st, st).

Definition with_requests (f : list string -> list string) (st : State) : State :=
  {| requests := f (requests st); console := console st; tweet := tweet st;
     files := files st; posts := posts st |}.

Definition with_console (f : list string -> list string) (st : State) : State :=
  {| requests := requests st; console := f (console st); tweet := tweet st;
     files := files st; posts := posts st |}.

Definition with_tweet (f : string -> string) (st : State) : State :=
  {| requests := requests st; console := console st; tweet := f (tweet st);
     files := files st; posts := posts st |}.

Definition with_files (f : gmap string File -> gmap string File) (st : State) : State :=
  {| requests := requests st; console := console st; tweet := tweet st;
     files := f (files st); posts := posts st |}.

Definition with_posts (f : list Post -> list Post) (st : State) : State :=
  {| requests := requests st; console := console st; tweet := tweet st;
     files := files st; posts := f (posts st) |}.

(** [console.log(s)] *)
Definition console_log (s : string) : M unit :=
  modify (with_console (fun c => c ++ [s])).

(** [tweet += s] *)
Definition tweet_append (s : string) : M unit :=
  modify (with_tweet (fun t => t +:+ s)).

(** [fs.writeFileSync(file, data)] *)
Definition writeFileSync (file : string) (data : File) : M unit :=
  modify (with_files (fun fs => <[file := data]> fs)).

(** [await request({uri, ...})]: the request is issued, then either
    answered or rejected. *)
Definition request {T} (get : string -> option T) (uri : string) : M T :=
  fun st =>
    let st' := with_requests (fun r => r ++ [uri]) st in
    match get uri with
    | Some res => (Ret res, st')
    | None => (Throw (RequestError uri), st')
    end.

(** [(x as string).split('.')]: a [TypeError] on [undefined]. *)
Definition split_dot (x : option string) : M (list string) :=
  match x with
  | Some s => ret (Str.split "." s)
  | None => throw TypeError
  end.

(** [list[i]], for the property reads that follow it: reading a property
    of [undefined] is a [TypeError]. *)
Definition item {A} (l : list A) (i : nat) : M A :=
  match l !! i with
  | Some x => ret x
  | None => throw TypeError
  end.

(** [a > b] where either side may be [undefined]: both strings compare
    as strings, anything else goes through [NaN] and is [false]. *)
Definition gt (a b : option string) : bool :=
  match a, b with
  | Some x, Some y => Str.gt x y
  | _, _ => false
  end.

(** [xs.indexOf(x)] *)
Fixpoint indexOf_from (i : Z) (xs : list string) (x : string) : Z :=
  match xs with
  | [] => (-1)%Z
  | y :: ys => if String.eqb y x then i else indexOf_from (i + 1)%Z ys x
  end.

Definition indexOf (xs : list string) (x : string) : Z := indexOf_from 0%Z xs x.

(** ** The patterns of the source *)

Module Pat.
Import Regex.

(** The source patterns are quoted with braces for their capturing
    parentheses and Q for the double quote.
    [/^\s*<{.*}>;\s*rel=Q{.*}Q\s*$/] *)
Definition link : regex :=
  Seq [Bol; Star true space; Char "<"; Group 1 (Star true dot); Lit ">;";
       Star true space; Lit "rel="; Char Str.dq; Group 2 (Star true dot);
       Char Str.dq; Star true space; Eol].

(** [/^\d+\.\d+\.\d+{\-insiders}?$/] *)
Definition tag : regex :=
  Seq [Bol; Plus digit; Char "."; Plus digit; Char "."; Plus digit;
       Opt (Group 1 (Lit "-insiders")); Eol].

(** [/target Q{.*?}Q/] *)
Definition target : regex :=
  Seq [Lit "target "; Char Str.dq; Group 1 (Star false dot); Char Str.dq].

(** [/CHROME_VERSION_STRING Q{.*?}Q/] *)
Definition chrome_version : regex :=
  Seq [Lit "CHROME_VERSION_STRING "; Char Str.dq; Group 1 (Star false dot);
       Char Str.dq].

(** [/NODE_MAJOR_VERSION {\d+}/] and its two siblings *)
Definition node_major : regex := Seq [Lit "NODE_MAJOR_VERSION "; Group 1 (Plus digit)].
Definition node_minor : regex := Seq [Lit "NODE_MINOR_VERSION "; Group 1 (Plus digit)].
Definition node_patch : regex := Seq [Lit "NODE_PATCH_VERSION "; Group 1 (Plus digit)].

(** [/{T|\..*}/g] *)
Definition date_noise : regex :=
  Group 1 (Alt (Char "T") (Cat (Char ".") (Star true dot))).

(** [/:\/\/{.*?}:443{.*}/] *)
Definition endpoint : regex :=
  Seq [Lit "://"; Group 1 (Star false dot); Lit ":443"; Group 2 (Star true dot)].

End Pat.

(** ** The pipeline *)

Section Pipeline.

Variable w : World.

(** [?client_id=${process.env.GITHUB_CLIENT_ID}&client_secret=${...}],
    the tail of every GitHub URI but the issue search. *)
Definition credentials : string :=
  "client_id=" +:+ Str.interp (GITHUB_CLIENT_ID (env w)) +:+
  "&client_secret=" +:+ Str.interp (GITHUB_CLIENT_SECRET (env w)).

(** The [for (const attr of linkAttr)] loop of [githubRequest]: the URI
    of the first attribute whose [rel] is [next], if there is one. *)
Fixpoint next_of (linkAttr : list string) : option string :=
  match linkAttr with
  | [] => None
  | attr :: rest =>
      match Regex.exec Pat.link attr with
      | Some urlMatches =>
          match urlMatches !! 2%nat, urlMatches !! 1%nat with
          | Some rel, Some url =>
              if String.eqb rel "next" then Some url else next_of rest
          | _, _ => next_of rest
          end
      | None => next_of rest
      end
  end.

(** The part of the [transform] callback that reads the header. *)
Definition next_link (header : option string) : option string :=
  match header with
  | Some link => next_of (Str.split "," link)
  | None => None
  end.

(** What is thrown inside the [transform] callback of the request for
    [uri] rejects that request with a [TransformError]. *)
Definition transforming {A} (uri : string) (m : M A) : M A :=
  fun st =>
    match m st with
    | (Throw e, st') => (Throw (TransformError uri e), st')
    | r => r
    end.

(** [githubRequest]; [fuel] bounds the number of pages followed.  The
    callback runs on every answer, whatever its status: a page that is
    refused is rejected only after the pages its header names have been
    followed. *)
Fixpoint githubRequest (fuel : nat) (uri : string) : M (list (list Tag)) :=
  match fuel with
  | O => fun st => (OutOfFuel, st)
  | S fuel' =>
      modify (with_requests (fun r => r ++ [uri])) ;;
      match get_tags w uri with
      | Some response =>
          match next_link (link response) with
          | Some next =>
              res <- transforming uri (githubRequest fuel' next) ;;
              ret ([page_body response] ++ res)
          | None => ret [page_body response]
          end
      | None =>
          match next_link (refused_link w uri) with
          | Some next =>
              transforming uri (githubRequest fuel' next) ;;
              throw (RequestError uri)
          | None => throw (RequestError uri)
          end
      end
  end.

(** The URI of the first page of tags. *)
Definition tags_uri : string :=
  "https://api.github.com/repos/Microsoft/vscode/tags?" +:+ credentials.

(** The two nested [forEach] of [fetchVSCodeVersion]. *)
Definition push_tags (tags : list string) (res : list (list Tag)) : list string :=
  fold_left
    (fun tags list =>
       fold_left
         (fun tags tag =>
            if Regex.test Pat.tag (name tag) then tags ++ [name tag] else tags)
         list tags)
    res tags.

(** [fetchVSCodeVersion] of [part_000]: the candidates, [master] first. *)
Definition fetchVSCodeVersion (fuel : nat) : M (list string) :=
  res <- githubRequest fuel tags_uri ;;
  ret (push_tags ["master"] res).

(** [pkg.electronVersion] *)
Definition read_electronVersion (pkg : Manifest) : M (option string) :=
  match pkg with
  | Holds pkg => ret (electronVersion pkg)
  | Nullish => throw TypeError
  end.

(** [yarnc.match(re)] *)
Definition yarnc_match (yarnc : Yarnrc) (re : Regex.regex) : M (option (gmap nat string)) :=
  match yarnc with
  | IsText yarnc => ret (Regex.exec re yarnc)
  | NotText => throw TypeError
  end.

(** [getElectron]: the manifest first, the build configuration second.
    A match carries its group, so the [length] tests of the source hold
    whenever the match is not [null]; the same goes for the functions
    below. *)
Definition getElectron (vscodeVersion : string) : M (option string) :=
  pkg <- request (get_package w)
           ("https://raw.githubusercontent.com/Microsoft/vscode/" +:+
            vscodeVersion +:+ "/package.json?" +:+ credentials) ;;
  electronVersion <- read_electronVersion pkg ;;
  if negb (Str.truthy_opt electronVersion) then
    yarnc <- request (get_yarnrc w)
               ("https://raw.githubusercontent.com/Microsoft/vscode/" +:+
                vscodeVersion +:+ "/.yarnrc?" +:+ credentials) ;;
    targetMatches <- yarnc_match yarnc Pat.target ;;
    match targetMatches with
    | Some targetMatches => ret (targetMatches !! 1%nat)
    | None => ret electronVersion
    end
  else ret electronVersion.

(** [getChromeVersion] and the URI it requests.  The parameter is typed
    [string] in the source and receives whatever [getElectron] returned. *)
Definition chrome_uri (electronVersion : option string) : string :=
  "https://raw.githubusercontent.com/electron/electron/v" +:+
  Str.interp electronVersion +:+ "/atom/common/chrome_version.h?" +:+ credentials.

Definition getChromeVersion (electronVersion : option string) : M (option string) :=
  chromeVersionHeaderFile <- request (get_text w) (chrome_uri electronVersion) ;;
  match Regex.exec Pat.chrome_version chromeVersionHeaderFile with
  | Some versionMatches => ret (versionMatches !! 1%nat)
  | None => ret None
  end.

(** [getNodeVersion] and the URI of its submodule lookup. *)
Definition node_uri (electronVersion : option string) : string :=
  "https://api.github.com/repos/electron/electron/contents/vendor/node?ref=v" +:+
  Str.interp electronVersion +:+ "&" +:+ credentials.

Definition getNodeVersion (electronVersion : option string) : M (option string) :=
  nodeSubModule <- request (get_submodule w) (node_uri electronVersion) ;;
  match sha nodeSubModule with
  | None => ret None
  | Some nodeSha =>
      if negb (Str.truthy nodeSha) then ret None
      else
        nodeVersionHeaderFile <- request (get_text w)
          ("https://raw.githubusercontent.com/electron/node/" +:+ nodeSha +:+
           "/src/node_version.h?" +:+ credentials) ;;
        match Regex.exec Pat.node_major nodeVersionHeaderFile,
              Regex.exec Pat.node_minor nodeVersionHeaderFile,
              Regex.exec Pat.node_patch nodeVersionHeaderFile with
        | Some major, Some minor, Some patch =>
            ret (Some (Str.interp (major !! 1%nat) +:+ "." +:+
                       Str.interp (minor !! 1%nat) +:+ "." +:+
                       Str.interp (patch !! 1%nat)))
        | _, _, _ => ret None
        end
  end.

(** [getIssues]: the table of open issues, and its sentence of the tweet. *)
Definition issue_uri : string :=
  "https://api.github.com/search/issues?q=is%3Aissue+archived%3Afalse+label%3Aelectron-update+is%3Aopen".

Definition issue_row (issue : Issue) : string :=
  "| [" +:+ title issue +:+ "](" +:+ html_url issue +:+ ") | [" +:+
  login (user issue) +:+ "](" +:+ user_html_url (user issue) +:+ ") | " +:+
  created_at issue +:+ " | " +:+ updated_at issue +:+ "|" +:+ Str.NL.

Definition getIssues : M string :=
  issueApiRes <- request (get_issues w) issue_uri ;;
  let issueList := items issueApiRes in
  let md :=
    fold_left (fun md issue => md +:+ issue_row issue) issueList
      (Str.NL +:+ Str.NL +:+ "## Open Issue About Electron Update" +:+
       Str.NL +:+ Str.NL +:+ "| Title | Creator | Create | Update |" +:+
       Str.NL +:+ "| :---:| :-----: | :----: | :----: |" +:+ Str.NL) in
  tweet_append (Str.of_nat (length issueList) +:+
                " open issue(s) about Electron update. ") ;;
  ret md.

(** One turn of the [for (const version of vscodeVersions)] loop of
    [getVersions], for a version that is not cached. *)
Definition resolve (version : string) : M VSCode :=
  console_log ("Fetching " +:+ version +:+ "...") ;;
  electronVersion <- getElectron version ;;
  chromeVersion <- getChromeVersion electronVersion ;;
  nodeVersion <- getNodeVersion electronVersion ;;
  ret {| vscode := if String.eqb version "master" then "Latest" else version;
         electron := electronVersion;
         chrome := chromeVersion;
         node := nodeVersion |}.

(** The loop itself, and [getVersions] around it. *)
Fixpoint versions_loop (vscodeVersions cachedVSersions : list string)
    (versionList : list VSCode) : M (list VSCode) :=
  match vscodeVersions with
  | [] => ret versionList
  | version :: rest =>
      if (0 <=? indexOf cachedVSersions version)%Z
      then versions_loop rest cachedVSersions versionList
      else
        tag <- resolve version ;;
        versions_loop rest cachedVSersions (versionList ++ [tag])
  end.

Definition getVersions (fuel : nat) : M (list VSCode) :=
  vscodeVersions <- fetchVSCodeVersion fuel ;;
  let cachedVSersions :=
    fold_left (fun cached v => cached ++ [vscode v]) (VERSION w) [] in
  versionList <- versions_loop vscodeVersions cachedVSersions [] ;;
  ret (versionList ++ VERSION w).

(** [ev1[0] > ev2[0] || ev1[1] && ev2[1] && ev1[1] > ev2[1]], the test
    on the electron and on the node components. *)
Definition bumped (v1 v2 : list string) : bool :=
  gt (v1 !! 0%nat) (v2 !! 0%nat) ||
  Str.truthy_opt (v1 !! 1%nat) && Str.truthy_opt (v2 !! 1%nat) &&
  gt (v1 !! 1%nat) (v2 !! 1%nat).

(** [cv1[0] > cv2[0]], the test on the chrome components. *)
Definition bumped_major (v1 v2 : list string) : bool :=
  gt (v1 !! 0%nat) (v2 !! 0%nat).

(** The first part of [saveToFile] (lines 195 to 237 of [part_000]):
    the value of [alertLevel] when the [switch] is reached. *)
Definition alertLevel (list : list VSCode) : M nat :=
  let alertLevel := 0 in
  if (1 <? length list)%nat then
    alertLevel <-
      (l0 <- item list 0 ;;
       l1 <- item list 1 ;;
       if Str.truthy_opt (electron l0) && Str.truthy_opt (electron l1) then
         ev1 <- split_dot (electron l0) ;;
         ev2 <- split_dot (electron l1) ;;
         let alertLevel := if bumped ev1 ev2 then 2 else alertLevel in
         nv1 <- split_dot (node l0) ;;
         nv2 <- split_dot (node l1) ;;
         let alertLevel := if bumped nv1 nv2 then 2 else alertLevel in
         cv1 <- split_dot (chrome l0) ;;
         cv2 <- split_dot (chrome l1) ;;
         let alertLevel := if bumped_major cv1 cv2 then 2 else alertLevel in
         ret alertLevel
       else ret alertLevel) ;;
    if (2 <? length list)%nat && (alertLevel =? 0)%nat then
      l1 <- item list 1 ;;
      l2 <- item list 2 ;;
      ev1 <- split_dot (electron l1) ;;
      ev2 <- split_dot (electron l2) ;;
      let alertLevel := if bumped ev1 ev2 then 1 else alertLevel in
      nv1 <- split_dot (node l1) ;;
      nv2 <- split_dot (node l2) ;;
      let alertLevel := if bumped nv1 nv2 then 1 else alertLevel in
      cv1 <- split_dot (chrome l1) ;;
      cv2 <- split_dot (chrome l2) ;;
      let alertLevel := if bumped_major cv1 cv2 then 1 else alertLevel in
      ret alertLevel
    else ret alertLevel
  else ret alertLevel.

(** The [switch (alertLevel)]: the banner and the tweet sentence. *)
Definition banner (alertLevel : nat) : string * string :=
  match alertLevel with
  | 0 => (Str.BQ +:+ Str.BQ +:+ Str.BQ +:+ "diff" +:+ Str.NL +:+
          "++ No change in recent release. ++" +:+ Str.NL +:+
          Str.BQ +:+ Str.BQ +:+ Str.BQ +:+ Str.NL +:+ Str.NL,
          "No change in recent release. ")
  | 1 => (Str.BQ +:+ Str.BQ +:+ Str.BQ +:+ "diff" +:+ Str.NL +:+
          "@@ Notice: Change in current release. @@" +:+ Str.NL +:+
          Str.BQ +:+ Str.BQ +:+ Str.BQ +:+ Str.NL +:+ Str.NL,
          "Notice: Change in current release. ")
  | 2 => (Str.BQ +:+ Str.BQ +:+ Str.BQ +:+ "diff" +:+ Str.NL +:+
          "-- Warning! Change in the next release. --" +:+ Str.NL +:+
          Str.BQ +:+ Str.BQ +:+ Str.BQ +:+ Str.NL +:+ Str.NL,
          "Warning! Change in the next release. ")
  | _ => ("", "")
  end.

(** One row of the version table; both entry points build it alike. *)
Definition version_row (version : VSCode) : string :=
  Str.NL +:+ "| " +:+ vscode version +:+ " | " +:+
  Str.or_else (electron version) "n/a" +:+ " | " +:+
  Str.or_else (node version) "n/a" +:+ " | " +:+
  Str.or_else (chrome version) "n/a" +:+ " |".

Definition table_head : string :=
  "| VS Code | Electron | Node | Chrome |" +:+ Str.NL +:+
  "|:-------:|:--------:|:----:|:------:|".

(** [list.shift()], for what it leaves in [list]. *)
Definition shift {A} (xs : list A) : list A :=
  match xs with
  | [] => []
  | _ :: rest => rest
  end.

(** [saveToFile] of [part_000]. *)
Definition saveToFile (list : list VSCode) : M unit :=
  let md :=
    "# VSCode Version Watcher" +:+ Str.NL +:+ Str.NL +:+
    "Follow on Twitter [@VscodeW](https://twitter.com/VscodeW)!" +:+
    Str.NL +:+ Str.NL in
  alertLevel <- alertLevel list ;;
  let md := md +:+ fst (banner alertLevel) in
  tweet_append (snd (banner alertLevel)) ;;
  let md :=
    md +:+ "Last update: " +:+ Regex.replace_all Pat.date_noise " " (now w) +:+
    "GMT" +:+ Str.NL +:+ Str.NL +:+ table_head in
  let md := fold_left (fun md version => md +:+ version_row version) list md in
  issues <- getIssues ;;
  let md := md +:+ issues in
  writeFileSync "README.md" (Text md) ;;
  let list := shift list in
  writeFileSync "version.json" (Json list).

(** What [https.request] refuses on the spot, with a [TypeError]: a
    path with a character at or below the blank, and a host name that
    cannot stand in the [Host] header it is copied to, which takes the
    tab and every character from the blank on but [DEL]. *)
Definition path_char (c : ascii) : bool := (32 <? Regex.code c)%N.

Definition header_char (c : ascii) : bool :=
  (Regex.code c =? 9)%N || (32 <=? Regex.code c)%N && negb (Regex.code c =? 127)%N.

Definition https_request (hostname path : string) : M unit :=
  if Str.all path_char path && Str.all header_char hostname then ret tt
  else throw TypeError.

(** [postTweet].  The callback given to [https.request] runs when a
    response arrives, after [start] is over; it is not part of the run
    modelled here. *)
Definition postTweet : M unit :=
  match TWEET_ENDPOINT (env w) with
  | None => console_log "No tweet endpoint found."
  | Some tweetEndpoint =>
      if negb (Str.truthy tweetEndpoint) then
        console_log "No tweet endpoint found."
      else
        match Regex.exec Pat.endpoint tweetEndpoint with
        | None => console_log "Tweet endpoint does not match the rule."
        | Some tweetEndpointMatches =>
            let hostname := Str.interp (tweetEndpointMatches !! 1%nat) in
            let path := Str.interp (tweetEndpointMatches !! 2%nat) in
            st <- get_state ;;
            https_request hostname path ;;
            modify (with_posts (fun ps => ps ++
              [{| hostname := hostname;
                  path := path;
                  content_length := String.length (tweet st);
                  written := tweet st |}]))
        end
  end.

(** [start] of [part_000]. *)
Definition start (fuel : nat) : M unit :=
  list <- getVersions fuel ;;
  saveToFile list ;;
  tweet_append "https://github.com/Sneezry/vscode-version-watcher#vscode-version-watcher" ;;
  postTweet ;;
  console_log "Finished!".

End Pipeline.

(** ** The entry point of [src/index.ts]

    No [master] candidate, no alert level, no issue table, no tweet, and
    the snapshot written is the whole list. *)

Module IndexTs.
Section Pipeline.

Variable w : World.

Definition fetchVSCodeVersion (fuel : nat) : M (list string) :=
  res <- githubRequest w fuel (tags_uri w) ;;
  ret (push_tags [] res).

Definition resolve (version : string) : M VSCode :=
  console_log ("Fetching " +:+ version +:+ "...") ;;
  electronVersion <- getElectron w version ;;
  chromeVersion <- getChromeVersion w electronVersion ;;
  nodeVersion <- getNodeVersion w electronVersion ;;
  ret {| vscode := version;
         electron := electronVersion;
         chrome := chromeVersion;
         node := nodeVersion |}.

Fixpoint versions_loop (vscodeVersions cachedVSersions : list string)
    (versionList : list VSCode) : M (list VSCode) :=
  match vscodeVersions with
  | [] => ret versionList
  | version :: rest =>
      if (0 <=? indexOf cachedVSersions version)%Z
      then versions_loop rest cachedVSersions versionList
      else
        tag <- resolve version ;;
        versions_loop rest cachedVSersions (versionList ++ [tag])
  end.

Definition getVersions (fuel : nat) : M (list VSCode) :=
  vscodeVersions <- fetchVSCodeVersion fuel ;;
  let cachedVSersions :=
    fold_left (fun cached v => cached ++ [vscode v]) (VERSION w) [] in
  versionList <- versions_loop vscodeVersions cachedVSersions [] ;;
  ret (versionList ++ VERSION w).

Definition saveToFile (list : list VSCode) : M unit :=
  let md := table_head in
  let md := fold_left (fun md version => md +:+ version_row version) list md in
  writeFileSync "README.md" (Text md) ;;
  writeFileSync "version.json" (Json list).

Definition start (fuel : nat) : M unit :=
  list <- getVersions fuel ;;
  saveToFile list ;;
  console_log "Finished!".

End Pipeline.
End IndexTs.

(** * Reading the specification *)

#[local] Arguments String.append !_ _ : simpl nomatch.

Module Lang.
Import Regex.

(** What one successful pass of [r] does to the matcher state. *)
Fixpoint Matches (r : regex) (st st' : mstate) : Prop :=
  match r with
  | Empty => st' = st
  | Char c => exists s', m_rest st = String c s' /\ st' = step st s'
  | Class p => exists x s', p x = true /\ m_rest st = String x s' /\ st' = step st s'
  | Cat r1 r2 => exists mid, Matches r1 st mid /\ Matches r2 mid st'
  | Alt r1 r2 => Matches r1 st st' \/ Matches r2 st st'
  | Opt r1 => Matches r1 st st' \/ st' = st
  | Star _ p =>
      exists u, Str.all p u = true /\ m_rest st = u +:+ m_rest st' /\
                m_pos st' = m_pos st + String.length u /\ m_caps st' = m_caps st
  | Group i r1 => exists mid, Matches r1 st mid /\ st' = set_cap i st mid
  | Bol => m_pos st = 0 /\ st' = st
  | Eol => m_rest st = "" /\ st' = st
  end.

End Lang.
Import Regex Lang.

Module TagSpec.
(** The pattern read as a grammar: three runs of decimal digits
    separated by dots, then nothing or [-insiders]. *)
Definition decimal (c : ascii) : Prop :=
  In c ["0"; "1"; "2"; "3"; "4"; "5"; "6"; "7"; "8"; "9"]%char.

Fixpoint Forall_chars (P : ascii -> Prop) (s : string) : Prop :=
  match s with
  | EmptyString => True
  | String c s' => P c /\ Forall_chars P s'
  end.

Definition Digits (u : string) : Prop := u <> "" /\ Forall_chars decimal u.

Definition SemVerTag (s : string) : Prop :=
  exists a b c suffix,
    s = a +:+ "." +:+ b +:+ "." +:+ c +:+ suffix /\
    Digits a /\ Digits b /\ Digits c /\
    (suffix = "" \/ suffix = "-insiders").
End TagSpec.
Import TagSpec.

Module Order.
(** Strictly greater, code unit by code unit. *)
Inductive StrGt : string -> string -> Prop :=
| gt_longer c s : StrGt (String c s) ""
| gt_head c d s t : (Regex.code d < Regex.code c)%N -> StrGt (String c s) (String d t)
| gt_tail c s t : StrGt s t -> StrGt (String c s) (String c t).

(** The number that a run of decimal digits writes. *)
Definition digit_value (c : ascii) : N := (Regex.code c - 48)%N.

Fixpoint number_from (acc : N) (s : string) : N :=
  match s with
  | EmptyString => acc
  | String c s' => number_from (acc * 10 + digit_value c) s'
  end.

Definition number (s : string) : N := number_from 0 s.

(** Two components that are numbers written with as many digits one as
    the other; a component that is missing is aligned with anything. *)
Definition aligned (x y : option string) : Prop :=
  match x, y with
  | Some a, Some b => Digits a /\ Digits b /\ String.length a = String.length b
  | _, _ => True
  end.

(** Both components are there and the first is the greater number. *)
Definition newer (x y : option string) : Prop :=
  exists a b, x = Some a /\ y = Some b /\ (number b < number a)%N.
End Order.
Import Order.

Module Classifier.
(** The components of a field; an absent field has none. *)
Definition parts (x : option string) : list string :=
  match x with
  | Some s => Str.split "." s
  | None => []
  end.

Definition present (x : option string) : bool :=
  match x with
  | Some _ => true
  | None => false
  end.

(** A pair of entries shows a change when one of the three tests of
    the source fires on it. *)
Definition shows_change (a b : VSCode) : bool :=
  bumped (parts (electron a)) (parts (electron b)) ||
  bumped (parts (node a)) (parts (node b)) ||
  bumped_major (parts (chrome a)) (parts (chrome b)).

(** The guard of the first comparison. *)
Definition both_electron (a b : VSCode) : bool :=
  Str.truthy_opt (electron a) && Str.truthy_opt (electron b).

Definition resolved (v : VSCode) : bool :=
  present (electron v) && present (node v) && present (chrome v).

(** What [alertLevel] comes to, case by case. *)
Definition verdict (l : list VSCode) : outcome nat :=
  match l with
  | a :: b :: rest =>
      if both_electron a b &&
         negb (present (node a) && present (node b) &&
               present (chrome a) && present (chrome b))
      then Throw TypeError
      else if both_electron a b && shows_change a b then Ret 2
      else
        match rest with
        | c :: _ =>
            if resolved b && resolved c
            then Ret (if shows_change b c then 1 else 0)
            else Throw TypeError
        | [] => Ret 0
        end
  | _ => Ret 0
  end.
End Classifier.
Import Classifier.

Module Pages.
(** A finite chain of pages: each page but the last names the next. *)
Inductive Chain (w : World) : string -> list (list Tag) -> list string -> Prop :=
| chain_last uri page :
    get_tags w uri = Some page ->
    next_link (link page) = None ->
    Chain w uri [page_body page] [uri]
| chain_next uri page next bodies uris :
    get_tags w uri = Some page ->
    next_link (link page) = Some next ->
    Chain w next bodies uris ->
    Chain w uri (page_body page :: bodies) (uri :: uris).
End Pages.
Import Pages.

Definition issued (uris : list string) (st : State) : State :=
  with_requests (fun r => r ++ uris) st.

(** ** The link header *)

Module LinkHeader.
(** One attribute of a [link] header as the tags endpoint writes it:
    optional blanks, the URI in angle brackets, then the relation. *)
Record entry : Type := { e_pad : string; e_uri : string; e_rel : string }.

Definition attribute (e : entry) : string :=
  e_pad e +:+ "<" +:+ e_uri e +:+ ">; rel=" +:+ Str.DQ +:+ e_rel e +:+ Str.DQ.

(** Characters of a URI or of a relation: no line terminator, no [>],
    no comma. *)
Definition inner (c : ascii) : bool :=
  dot c && negb (Ascii.eqb c ">") && negb (Ascii.eqb c ",").

Definition well_formed (e : entry) : bool :=
  Str.all space (e_pad e) && Str.all inner (e_uri e) && Str.all inner (e_rel e).

(** [attributes.join(',')] *)
Fixpoint join (l : list string) : string :=
  match l with
  | [] => ""
  | [a] => a
  | a :: l' => a +:+ "," +:+ join l'
  end.

(** The URI of the first entry whose relation is [next]. *)
Fixpoint first_next (es : list entry) : option string :=
  match es with
  | [] => None
  | e :: es' => if String.eqb (e_rel e) "next" then Some (e_uri e) else first_next es'
  end.

(** A pass that only consumes [u]. *)
Definition Eats (u : string) (st st' : mstate) : Prop :=
  m_rest st = u +:+ m_rest st' /\
  m_pos st' = m_pos st + String.length u /\
  m_caps st' = m_caps st.
End LinkHeader.
Import LinkHeader.

Module Run.
(** The same surroundings with another [TWEET_ENDPOINT]. *)
Definition with_endpoint (ep : option string) (w : World) : World :=
  {| env := {| GITHUB_CLIENT_ID := GITHUB_CLIENT_ID (env w);
               GITHUB_CLIENT_SECRET := GITHUB_CLIENT_SECRET (env w);
               TWEET_ENDPOINT := ep |};
     VERSION := VERSION w;
     now := now w;
     get_tags := get_tags w;
     refused_link := refused_link w;
     get_package := get_package w;
     get_yarnrc := get_yarnrc w;
     get_text := get_text w;
     get_submodule := get_submodule w;
     get_issues := get_issues w |}.

(** The statements of [start] that come before [postTweet]. *)
Definition before_post (w : World) (fuel : nat) : M unit :=
  list <- getVersions w fuel ;;
  saveToFile w list ;;
  tweet_append "https://github.com/Sneezry/vscode-version-watcher#vscode-version-watcher".

(** A computation that posts nothing. *)
Definition quiet {A} (m : M A) : Prop :=
  forall st, posts (snd (m st)) = posts st.

(** The endpoints that [https.request] refuses: they are set, they
    match the pattern, and the path or the host name they give has a
    character that is not taken. *)
Definition unsendable (ep : option string) : bool :=
  match ep with
  | Some ep =>
      Str.truthy ep &&
      match Regex.exec Pat.endpoint ep with
      | Some groups =>
          negb (Str.all path_char (Str.interp (groups !! 2%nat)) &&
                Str.all header_char (Str.interp (groups !! 1%nat)))
      | None => false
      end
  | None => false
  end.
End Run.
Import Run.

Module Claimed.
(** Following the words of the specification, not the code. *)

Definition differs (x y : option string) : bool := negb (bool_decide (x = y)).

(** "The first component differs, or the second component differs and
    both are present." *)
Definition changed (v1 v2 : list string) : bool :=
  differs (v1 !! 0%nat) (v2 !! 0%nat) ||
  present (v1 !! 1%nat) && present (v2 !! 1%nat) &&
  differs (v1 !! 1%nat) (v2 !! 1%nat).

(** A pair shows a change when one of its three fields is changed. *)
Definition shows_change (a b : VSCode) : bool :=
  changed (parts (electron a)) (parts (electron b)) ||
  changed (parts (node a)) (parts (node b)) ||
  changed (parts (chrome a)) (parts (chrome b)).

(** "Warning when entries 0 and 1 show any changed field; otherwise
    Notice when there are three entries and entries 1 and 2 show one;
    otherwise None", for a given reading [shows] of "show a changed
    field". *)
Definition severity (shows : VSCode -> VSCode -> bool) (l : list VSCode) : nat :=
  match l with
  | a :: b :: rest =>
      if shows a b then 2
      else
        match rest with
        | c :: _ => if shows b c then 1 else 0
        | [] => 0
        end
  | _ => 0
  end.
End Claimed.

(** The severity the code computes when no split fails. *)
Definition severity (l : list VSCode) : nat :=
  match l with
  | a :: b :: rest =>
      if both_electron a b && shows_change a b then 2
      else
        match rest with
        | c :: _ => if shows_change b c then 1 else 0
        | [] => 0
        end
  | _ => 0
  end.

(** The lineages on which no split meets an absent field. *)
Definition completes (l : list VSCode) : bool :=
  match l with
  | a :: b :: rest =>
      (negb (both_electron a b) ||
       present (node a) && present (node b) &&
       present (chrome a) && present (chrome b)) &&
      match rest with
      | c :: _ => both_electron a b && shows_change a b || resolved b && resolved c
      | [] => true
      end
  | _ => true
  end.

(** What the comparison of entries 1 and 2 comes to. *)
Definition notice_outcome (b c : VSCode) : outcome nat :=
  if resolved b && resolved c
  then Ret (if shows_change b c then 1 else 0)
  else Throw TypeError.

Module Sample.

Definition quoted (s : string) : string := Str.DQ +:+ s +:+ Str.DQ.

(** Link headers as the tags endpoint sends them. *)
Definition header1 : string :=
  "<https://api.github.com/p2>; rel=" +:+ quoted "next" +:+
  ", <https://api.github.com/p3>; rel=" +:+ quoted "last".

Definition header2 : string :=
  "<https://api.github.com/p1>; rel=" +:+ quoted "prev" +:+
  ", <https://api.github.com/p3>; rel=" +:+ quoted "next".

Definition no_env : Env :=
  {| GITHUB_CLIENT_ID := None; GITHUB_CLIENT_SECRET := None; TWEET_ENDPOINT := None |}.

Definition first_uri : string :=
  "https://api.github.com/repos/Microsoft/vscode/tags?client_id=undefined&client_secret=undefined".

(** Three pages of tags. *)
Definition page1 : Page :=
  {| link := Some header1;
     page_body := [ {| name := "1.3.0" |}; {| name := "v1" |} ] |}.

Definition page2 : Page :=
  {| link := Some header2; page_body := [ {| name := "1.2.0" |} ] |}.

Definition page3 : Page :=
  {| link := None; page_body := [ {| name := "1.1.0-insiders" |} ] |}.

Definition three_pages (uri : string) : option Page :=
  if String.eqb uri first_uri then Some page1
  else if String.eqb uri "https://api.github.com/p2" then Some page2
  else if String.eqb uri "https://api.github.com/p3" then Some page3
  else None.

(** One page without tags. *)
Definition no_tags (uri : string) : option Page :=
  Some {| link := None; page_body := [] |}.

Definition headers : string :=
  "#define CHROME_VERSION_STRING " +:+ quoted "71.0" +:+ Str.NL +:+
  "#define NODE_MAJOR_VERSION 10" +:+ Str.NL +:+
  "#define NODE_MINOR_VERSION 1" +:+ Str.NL +:+
  "#define NODE_PATCH_VERSION 0".

Definition yarnrc : string :=
  "disturl " +:+ quoted "https://atom.io/download/electron" +:+ Str.NL +:+
  "target " +:+ quoted "2.1.0" +:+ Str.NL +:+ headers.

Definition release_1_2_0 : VSCode :=
  {| vscode := "1.2.0"; electron := Some "2.0.0"; node := Some "10.0.0";
     chrome := Some "70.0" |}.

Definition latest : VSCode :=
  {| vscode := "Latest"; electron := Some "2.1.0"; node := Some "10.1.0";
     chrome := Some "71.0" |}.

Definition world (cache : list VSCode) (tags : string -> option Page)
    (text : string) (nodeSha : option string) : World :=
  {| env := no_env;
     VERSION := cache;
     now := "2018-10-01T12:34:56.789Z";
     get_tags := tags;
     refused_link := fun _ => None;
     get_package := fun _ => Some (Holds {| electronVersion := None |});
     get_yarnrc := fun _ => Some (IsText text);
     get_text := fun _ => Some text;
     get_submodule := fun _ => Some {| sha := nodeSha |};
     get_issues := fun _ => Some {| items := [] |} |}.

(** The end-to-end scenario of the specification. *)
Definition scenario : World := world [release_1_2_0] no_tags yarnrc (Some "abc").

Definition paged : World := world [release_1_2_0] three_pages yarnrc (Some "abc").

(** Every candidate is cached, [master] included. *)
Definition all_cached : World :=
  world [ {| vscode := "master"; electron := Some "2.1.0"; node := Some "10.1.0";
             chrome := Some "71.0" |};
          {| vscode := "1.3.0"; electron := Some "2.1.0"; node := Some "10.1.0";
             chrome := Some "71.0" |};
          release_1_2_0;
          {| vscode := "1.1.0-insiders"; electron := Some "2.0.0";
             node := Some "10.0.0"; chrome := Some "70.0" |} ]
        three_pages yarnrc (Some "abc").

(** Neither [package.json] nor [.yarnrc] names an electron version. *)
Definition no_electron : World := world [release_1_2_0] no_tags headers (Some "abc").

(** The node submodule cannot be looked up. *)
Definition no_node : World := world [release_1_2_0] no_tags yarnrc None.

Definition latest_no_node : VSCode :=
  {| vscode := "Latest"; electron := Some "2.1.0"; node := None;
     chrome := Some "71.0" |}.

(** Entries with an older head, and with an absent shell runtime. *)
Definition downgrade : list VSCode :=
  [ {| vscode := "Latest"; electron := Some "1.0.0"; node := Some "8.9.3";
       chrome := Some "59.0.1" |};
    {| vscode := "1.30.0"; electron := Some "2.0.0"; node := Some "8.9.3";
       chrome := Some "59.1.0" |} ].

Definition headless : list VSCode :=
  [ {| vscode := "Latest"; electron := None; node := Some "9.0.0";
       chrome := Some "70.0" |};
    {| vscode := "1.30.0"; electron := Some "1.0.0"; node := Some "8.0.0";
       chrome := Some "69.0" |} ].

Definition fetching (version : string) (st : State) : State :=
  with_console (fun c => c ++ ["Fetching " +:+ version +:+ "..."]) st.

End Sample.

(** ** Further readings of the code *)

Module Further.

(** The [link] header that the callback of the request for [uri] reads:
    that of the answer, whatever its status. *)
Definition seen_link (w : World) (uri : string) : option string :=
  match get_tags w uri with
  | Some page => link page
  | None => refused_link w uri
  end.

(** The pages that are followed from [uri]: as long as the header read
    names a next one, be the page answered or refused. *)
Inductive Followed (w : World) : string -> list string -> Prop :=
| followed_last uri :
    next_link (seen_link w uri) = None ->
    Followed w uri [uri]
| followed_next uri next uris :
    next_link (seen_link w uri) = Some next ->
    Followed w next uris ->
    Followed w uri (uri :: uris).

(** What the requests for the pages followed come to, the last one
    settled first. *)
Fixpoint settle (w : World) (uris : list string) : outcome (list (list Tag)) :=
  match uris with
  | [] => Ret []
  | uri :: rest =>
      match settle w rest, get_tags w uri with
      | Ret res, Some page => Ret (page_body page :: res)
      | Ret _, None => Throw (RequestError uri)
      | Throw e, _ => Throw (TransformError uri e)
      | OutOfFuel, _ => OutOfFuel
      end
  end.

(** The rejection of the request for [bad] as it comes out of the
    callbacks of the requests [outer] made before it. *)
Definition surfaced (outer : list string) (bad : string) : exn :=
  fold_right TransformError (RequestError bad) outer.

(** The name under which a candidate is recorded. *)
Definition recorded (version : string) : string :=
  if String.eqb version "master" then "Latest" else version.

(** The candidates that the loop of [getVersions] resolves: those that
    are not the name of a cached entry, in their order. *)
Definition uncached (cached : list VSCode) (candidates : list string) : list string :=
  List.filter (fun v => negb (bool_decide (v ∈ map vscode cached))) candidates.

(** A computation that leaves one aspect [f] of the state as it was. *)
Definition keeps {A B} (f : State -> B) (m : M A) : Prop :=
  forall st, f (snd (m st)) = f st.

(** The exceptions that are the rejection of a request. *)
Definition rejection (e : exn) : bool :=
  match e with
  | RequestError _ | TransformError _ _ => true
  | TypeError => false
  end.

(** A computation that throws nothing but rejections. *)
Definition network_only {A} (m : M A) : Prop :=
  forall st e st', m st = (Throw e, st') -> rejection e = true.


(** The two patterns that scrape a quoted value after a keyword. *)
Definition quoted_after (keyword : string) : regex :=
  Seq [Lit keyword; Char Str.dq; Group 1 (Star false dot); Char Str.dq].

(** The three patterns that scrape a number after a keyword. *)
Definition number_after (keyword : string) : regex :=
  Seq [Lit keyword; Group 1 (Plus digit)].

(** The URIs that [getElectron] requests, and the one of the header
    that [getNodeVersion] requests for a submodule reference. *)
Definition package_uri (w : World) (vscodeVersion : string) : string :=
  "https://raw.githubusercontent.com/Microsoft/vscode/" +:+
  vscodeVersion +:+ "/package.json?" +:+ credentials w.

Definition yarnrc_uri (w : World) (vscodeVersion : string) : string :=
  "https://raw.githubusercontent.com/Microsoft/vscode/" +:+
  vscodeVersion +:+ "/.yarnrc?" +:+ credentials w.

Definition node_header_uri (w : World) (nodeSha : string) : string :=
  "https://raw.githubusercontent.com/electron/node/" +:+ nodeSha +:+
  "/src/node_version.h?" +:+ credentials w.

(** Characters of a scraped quoted value: on one line, and no quote. *)
Definition unquoted (c : ascii) : bool := dot c && negb (Ascii.eqb c Str.dq).

(** Where a greedy run of [.] stops: at the end of the text or of the line. *)
Definition line_end (s : string) : Prop :=
  s = "" \/ exists c s', s = String c s' /\ dot c = false.

(** A non-empty run of digits. *)
Definition numeral (s : string) : Prop := s <> "" /\ Str.all digit s = true.

(** The text has the keyword followed by the value. *)
Definition defines (text keyword value : string) : Prop :=
  exists pre post, text = pre +:+ keyword +:+ value +:+ post.

(** Characters of the date and of the time of a timestamp. *)
Definition stamp_char (c : ascii) : bool :=
  negb (Ascii.eqb c "T") && negb (Ascii.eqb c ".").

(** [xs.join(sep)] for a one-character separator. *)
Fixpoint join_with (sep : ascii) (xs : list string) : string :=
  match xs with
  | [] => ""
  | [x] => x
  | x :: xs' => x +:+ String sep (join_with sep xs')
  end.

(** All the rows of a table, one after the other. *)
Fixpoint rows {A} (row : A -> string) (xs : list A) : string :=
  match xs with
  | [] => ""
  | x :: xs' => row x +:+ rows row xs'
  end.

End Further.
Import Further.

Module Sample2.

(** The second page of tags is refused, with a header that names the
    third. *)
Definition refusing : World :=
  {| env := Sample.no_env;
     VERSION := [Sample.release_1_2_0];
     now := "2018-10-01T12:34:56.789Z";
     get_tags := fun uri =>
       if String.eqb uri "https://api.github.com/p2" then None
       else Sample.three_pages uri;
     refused_link := fun uri =>
       if String.eqb uri "https://api.github.com/p2" then Some Sample.header2
       else None;
     get_package := fun _ => Some (Holds {| electronVersion := None |});
     get_yarnrc := fun _ => Some (IsText Sample.yarnrc);
     get_text := fun _ => Some Sample.yarnrc;
     get_submodule := fun _ => Some {| sha := Some "abc" |};
     get_issues := fun _ => Some {| items := [] |} |}.

(** The build configuration of every release is empty, which a request
    made with [json: true] hands over as [undefined]. *)
Definition empty_yarnrc : World :=
  {| env := Sample.no_env;
     VERSION := [Sample.release_1_2_0];
     now := "2018-10-01T12:34:56.789Z";
     get_tags := Sample.three_pages;
     refused_link := fun _ => None;
     get_package := fun _ => Some (Holds {| electronVersion := None |});
     get_yarnrc := fun _ => Some NotText;
     get_text := fun _ => Some Sample.yarnrc;
     get_submodule := fun _ => Some {| sha := Some "abc" |};
     get_issues := fun _ => Some {| items := [] |} |}.

(** A page that names itself as the next one. *)
Definition loop_header : string :=
  "<https://api.github.com/loop>; rel=" +:+ Sample.quoted "next".

Definition loop_page : Page :=
  {| link := Some loop_header; page_body := [ {| name := "1.0.0" |} ] |}.

Definition looping : World :=
  Sample.world [] (fun _ => Some loop_page) Sample.yarnrc (Some "abc").

(** The scenario of the specification with an endpoint configured. *)
Definition with_tweets : World :=
  with_endpoint (Some "https://tweets.example.org:443/api/post") Sample.scenario.

End Sample2.

(** * Proofs *)

(** ** The matcher against its language *)

Lemma mstate_eta st : MState (m_pos st) (m_rest st) (m_caps st) = st.
Proof. by destruct st. Qed.

Lemma star_greedy_sound p s : forall pos k res,
  star_greedy p pos s k = Some res ->
  exists u s', s = u +:+ s' /\ Str.all p u = true /\ k (pos + String.length u) s' = Some res.
Proof.
  induction s as [|c s IH]; intros pos k res H; simpl in H.
  - exists "", "". simpl. by rewrite Nat.add_0_r.
  - destruct (p c) eqn:Hc.
    + destruct (star_greedy p (S pos) s k) eqn:Hg.
      * injection H as ->. apply IH in Hg as (u & s' & -> & Hu & Hk).
        exists (String c u), s'. simpl. rewrite Hc, Hu.
        by rewrite <- Nat.add_succ_comm.
      * exists "", (String c s). simpl. by rewrite Nat.add_0_r.
    + exists "", (String c s). simpl. by rewrite Nat.add_0_r.
Qed.

Lemma star_greedy_complete p u : forall s' pos k,
  Str.all p u = true -> is_Some (k (pos + String.length u) s') ->
  is_Some (star_greedy p pos (u +:+ s') k).
Proof.
  induction u as [|c u IH]; intros s' pos k Hu Hk; simpl in *.
  - rewrite Nat.add_0_r in Hk. destruct s' as [|x s']; simpl; [done|].
    destruct (p x); [|done]. by destruct (star_greedy p (S pos) s' k).
  - apply andb_true_iff in Hu as [Hc Hu]. rewrite Hc.
    rewrite <- Nat.add_succ_comm in Hk.
    destruct (IH s' (S pos) k Hu Hk) as [r ->]. done.
Qed.

Lemma star_lazy_sound p s : forall pos k res,
  star_lazy p pos s k = Some res ->
  exists u s', s = u +:+ s' /\ Str.all p u = true /\ k (pos + String.length u) s' = Some res.
Proof.
  induction s as [|c s IH]; intros pos k res H; simpl in H.
  - exists "", "". simpl. rewrite Nat.add_0_r. by destruct (k pos "").
  - destruct (k pos (String c s)) eqn:Hk.
    + injection H as ->. exists "", (String c s). simpl. by rewrite Nat.add_0_r.
    + destruct (p c) eqn:Hc; [|done].
      apply IH in H as (u & s' & -> & Hu & Hk').
      exists (String c u), s'. simpl. rewrite Hc, Hu.
      by rewrite <- Nat.add_succ_comm.
Qed.

Lemma star_lazy_complete p u : forall s' pos k,
  Str.all p u = true -> is_Some (k (pos + String.length u) s') ->
  is_Some (star_lazy p pos (u +:+ s') k).
Proof.
  induction u as [|c u IH]; intros s' pos k Hu Hk; simpl in *.
  - rewrite Nat.add_0_r in Hk. destruct Hk as [r Hk].
    destruct s' as [|x s']; simpl; by rewrite Hk.
  - apply andb_true_iff in Hu as [Hc Hu]. rewrite Hc.
    rewrite <- Nat.add_succ_comm in Hk.
    destruct (k pos (String c (u +:+ s'))); [done|].
    by apply IH.
Qed.

(** Whatever the matcher returns went through a pass of [r]. *)
Lemma run_sound r : forall st k res,
  run r st k = Some res -> exists st', Matches r st st' /\ k st' = Some res.
Proof.
  induction r as [|c|p|r1 IH1 r2 IH2|r1 IH1 r2 IH2|r1 IH1|g p|i r1 IH1| |];
    intros st k res H; simpl in H.
  - by exists st.
  - destruct (m_rest st) as [|x s'] eqn:Hr; [done|].
    destruct (Ascii.eqb x c) eqn:Hx; [|done]. apply Ascii.eqb_eq in Hx as ->.
    exists (step st s'). split; [|done]. by exists s'.
  - destruct (m_rest st) as [|x s'] eqn:Hr; [done|].
    destruct (p x) eqn:Hx; [|done].
    exists (step st s'). split; [|done]. by exists x, s'.
  - apply IH1 in H as (mid & H1 & H). apply IH2 in H as (st' & H2 & H).
    exists st'. split; [|done]. by exists mid.
  - destruct (run r1 st k) eqn:H1.
    + injection H as ->. apply IH1 in H1 as (st' & ? & ?). exists st'. simpl. auto.
    + apply IH2 in H as (st' & ? & ?). exists st'. simpl. auto.
  - destruct (run r1 st k) eqn:H1.
    + injection H as ->. apply IH1 in H1 as (st' & ? & ?). exists st'. simpl. auto.
    + exists st. simpl. auto.
  - assert (exists u s', m_rest st = u +:+ s' /\ Str.all p u = true /\
              k (MState (m_pos st + String.length u) s' (m_caps st)) = Some res)
      as (u & s' & Hs & Hu & Hk).
    { destruct g; [apply star_greedy_sound in H | apply star_lazy_sound in H];
        destruct H as (u & s' & ? & ? & ?); by exists u, s'. }
    eexists. split; [|exact Hk]. exists u. by simpl.
  - apply IH1 in H as (mid & H1 & H). eexists. split; [|exact H]. by exists mid.
  - destruct (Nat.eqb (m_pos st) 0) eqn:Hp; [|done]. apply Nat.eqb_eq in Hp.
    by exists st.
  - destruct (m_rest st) eqn:Hr; [|done]. by exists st.
Qed.

(** A pass of [r] that the continuation accepts makes the matcher succeed. *)
Lemma run_complete r : forall st st' k,
  Matches r st st' -> is_Some (k st') -> is_Some (run r st k).
Proof.
  induction r as [|c|p|r1 IH1 r2 IH2|r1 IH1 r2 IH2|r1 IH1|g p|i r1 IH1| |];
    intros st st' k H Hk; simpl in H |- *.
  - by subst.
  - destruct H as (s' & -> & ->). by rewrite Ascii.eqb_refl.
  - destruct H as (x & s' & Hx & -> & ->). by rewrite Hx.
  - destruct H as (mid & H1 & H2). eapply IH1; [exact H1|]. by eapply IH2.
  - destruct H as [H|H].
    + destruct (IH1 _ _ _ H Hk) as [r ->]. done.
    + destruct (run r1 st k); [done|]. by eapply IH2.
  - destruct H as [H| ->].
    + destruct (IH1 _ _ _ H Hk) as [r ->]. done.
    + by destruct (run r1 st k).
  - destruct H as (u & Hu & Hs & Hp & Hc). rewrite Hs.
    destruct g; [apply star_greedy_complete | apply star_lazy_complete];
      try done; by rewrite <- Hp, <- Hc, mstate_eta.
  - destruct H as (mid & H1 & ->). by eapply IH1.
  - destruct H as [-> ->]. done.
  - destruct H as [-> ->]. done.
Qed.

Lemma run_some r st k :
  is_Some (run r st k) <-> exists st', Matches r st st' /\ is_Some (k st').
Proof.
  split.
  - intros [res H]. apply run_sound in H as (st' & ? & ?). by exists st'.
  - intros (st' & ? & ?). by eapply run_complete.
Qed.

(** ** The tag pattern *)

Lemma digit_decimal c : digit c = true <-> decimal c.
Proof.
  unfold decimal.
  destruct c as [[] [] [] [] [] [] [] []]; vm_compute;
    split; intros H; try discriminate; try reflexivity; try tauto;
    repeat (destruct H as [H|H]; [discriminate H|]); try done.
Qed.

Lemma all_digit u : Str.all digit u = true <-> Forall_chars decimal u.
Proof.
  induction u as [|c u IH]; simpl; [done|].
  rewrite andb_true_iff, digit_decimal, IH. done.
Qed.

Lemma app_assoc_str (a b c : string) : (a +:+ b) +:+ c = a +:+ (b +:+ c).
Proof. induction a; simpl; congruence. Qed.

Lemma app_length_str (a b : string) :
  String.length (a +:+ b) = String.length a + String.length b.
Proof. induction a; simpl; congruence. Qed.

Lemma app_empty_r (a : string) : a +:+ "" = a.
Proof. induction a; simpl; congruence. Qed.

(** The input consumed by a pass. *)
Lemma Matches_Plus_rest p st st' :
  Matches (Plus p) st st' ->
  exists u, u <> "" /\ Str.all p u = true /\ m_rest st = u +:+ m_rest st'.
Proof.
  intros (mid & (x & s' & Hx & Hr & ->) & (u & Hu & Hs & _)). simpl in *.
  exists (String x u). simpl. rewrite Hx, Hu, Hr, Hs. done.
Qed.

Lemma Matches_Lit_rest s : forall st st',
  Matches (Lit s) st st' -> m_rest st = s +:+ m_rest st'.
Proof.
  induction s as [|c s IH]; intros st st' H; simpl in H.
  - by subst.
  - destruct H as (mid & (s' & Hr & ->) & H). apply IH in H. simpl in *.
    by rewrite Hr, H.
Qed.

Lemma run_Char_complete c st k :
  forall s', m_rest st = String c s' -> is_Some (k (step st s')) ->
  is_Some (run (Char c) st k).
Proof. intros s' Hr Hk. simpl. by rewrite Hr, Ascii.eqb_refl. Qed.

Lemma run_Plus_complete p u st s' k :
  u <> "" -> Str.all p u = true -> m_rest st = u +:+ s' ->
  is_Some (k (MState (m_pos st + String.length u) s' (m_caps st))) ->
  is_Some (run (Plus p) st k).
Proof.
  intros Hne Hu Hr Hk. destruct u as [|x u]; [done|]. simpl in Hu, Hr.
  apply andb_true_iff in Hu as [Hx Hu].
  simpl. rewrite Hr, Hx. simpl.
  apply star_greedy_complete; [done|].
  simpl in Hk. by rewrite <- Nat.add_succ_comm in Hk.
Qed.

Lemma run_Lit_complete s : forall st s' k,
  m_rest st = s +:+ s' ->
  is_Some (k (MState (m_pos st + String.length s) s' (m_caps st))) ->
  is_Some (run (Lit s) st k).
Proof.
  induction s as [|c s IH]; intros st s' k Hr Hk; simpl in *.
  - by rewrite Nat.add_0_r, <- Hr, mstate_eta in Hk.
  - rewrite Hr, Ascii.eqb_refl. apply (IH _ s'); [done|].
    simpl. by rewrite <- Nat.add_succ_comm in Hk.
Qed.

(** Searching: the leftmost index at which an attempt succeeds. *)
Lemma search_from_sound r s : forall pos p st,
  search_from r pos s = Some (p, st) ->
  exists n, p = pos + n /\ n <= String.length s /\
            attempt r p (Str.drop n s) = Some st.
Proof.
  induction s as [|c s IH]; intros pos p st H; simpl in H.
  - destruct (attempt r pos "") eqn:Ha; [|done]. injection H as <- <-.
    exists 0. by rewrite Nat.add_0_r.
  - destruct (attempt r pos (String c s)) eqn:Ha.
    + injection H as <- <-. exists 0. rewrite Nat.add_0_r. simpl.
      split; [done|]. split; [lia|done].
    + apply IH in H as (n & -> & Hn & H). exists (S n). simpl.
      split; [lia|]. split; [lia|done].
Qed.

Lemma search_from_here r s pos :
  is_Some (attempt r pos s) -> is_Some (search_from r pos s).
Proof. intros [st H]. destruct s; simpl; by rewrite H. Qed.

Lemma run_Cat r1 r2 st k :
  run (Cat r1 r2) st k = run r1 st (fun st' => run r2 st' k).
Proof. reflexivity. Qed.

Lemma run_Group i r st k :
  run (Group i r) st k = run r st (fun st' => k (set_cap i st st')).
Proof. reflexivity. Qed.

Lemma tag_accepts s : SemVerTag s -> test Pat.tag s = true.
Proof.
  intros (a & b & c & suffix & -> & [Ha Ha'] & [Hb Hb'] & [Hc Hc'] & Hsuf).
  apply all_digit in Ha', Hb', Hc'.
  unfold test.
  assert (is_Some (search_from Pat.tag 0 (a +:+ "." +:+ b +:+ "." +:+ c +:+ suffix)))
    as [[p st] ->]; [|done].
  apply search_from_here. unfold attempt, Pat.tag. cbn [Seq].
  rewrite run_Group, run_Cat. change (run Bol ?st ?k) with (k st). cbv beta.
  rewrite run_Cat.
  eapply run_Plus_complete; [exact Ha|exact Ha'|reflexivity|].
  rewrite run_Cat. eapply run_Char_complete; [reflexivity|]. cbv beta.
  rewrite run_Cat.
  eapply run_Plus_complete; [exact Hb|exact Hb'|reflexivity|].
  rewrite run_Cat. eapply run_Char_complete; [reflexivity|]. cbv beta.
  rewrite run_Cat.
  eapply run_Plus_complete; [exact Hc|exact Hc'|reflexivity|].
  destruct Hsuf as [-> | ->]; by cbn.
Qed.

Lemma tag_rejects s : test Pat.tag s = true -> SemVerTag s.
Proof.
  unfold test. destruct (search_from Pat.tag 0 s) as [[p st]|] eqn:H; [|done].
  intros _. apply search_from_sound in H as (n & -> & Hn & H).
  unfold attempt in H. apply run_sound in H as (st' & H & _).
  destruct H as (mid & H & _). unfold Pat.tag in H. cbn [Seq] in H.
  destruct H as (s1 & [Hpos ->] & s2 & Ha & s3 & Hd1 & s4 & Hb & s5 & Hd2 &
                 s6 & Hc & s7 & Hsuf & s8 & [Hend ->] & ->).
  simpl in Hpos. subst n. simpl Str.drop in *.
  apply Matches_Plus_rest in Ha as (a & Ha & Ha' & Hra).
  apply Matches_Plus_rest in Hb as (b & Hb & Hb' & Hrb).
  apply Matches_Plus_rest in Hc as (c & Hc & Hc' & Hrc).
  assert (exists suffix, m_rest s6 = suffix /\ (suffix = "" \/ suffix = "-insiders"))
    as (suffix & Hs6 & Hsuffix).
  { destruct Hsuf as [(m & Hl & ->) | ->].
    - apply Matches_Lit_rest in Hl. simpl in Hend. rewrite Hend in Hl.
      eexists; split; [exact Hl|]. by right.
    - eexists; split; [exact Hend|]. by left. }
  destruct Hd1 as (? & Hd1 & ->). destruct Hd2 as (? & Hd2 & ->).
  simpl in Hra, Hrb, Hrc. rewrite Hd1 in Hra. rewrite Hd2 in Hrb.
  apply all_digit in Ha', Hb', Hc'.
  exists a, b, c, suffix. split; [|done].
  rewrite Hra, Hrb, Hrc, Hs6. done.
Qed.

(** ** Comparing strings *)

Lemma ascii_compare_gt c d :
  Ascii.compare c d = Gt <-> (Regex.code d < Regex.code c)%N.
Proof. unfold Ascii.compare, Regex.code. rewrite N.compare_gt_iff. done. Qed.

Lemma ascii_compare_refl c : Ascii.compare c c = Eq.
Proof. unfold Ascii.compare. apply N.compare_refl. Qed.

Lemma compare_gt_StrGt a : forall b, String.compare a b = Gt <-> StrGt a b.
Proof.
  induction a as [|c a IH]; intros [|d b]; simpl.
  - split; [done|inversion 1].
  - split; [done|inversion 1].
  - split; [constructor|done].
  - destruct (Ascii.compare c d) eqn:Hcd.
    + apply Ascii.compare_eq_iff in Hcd as ->. rewrite IH. split.
      * by constructor.
      * inversion 1 as [ | ? ? ? ? Hlt | ? ? ? Hgt]; subst; [lia|done].
    + split; [done|]. inversion 1 as [ | ? ? ? ? Hlt | ? ? ? Hgt]; subst.
      * apply ascii_compare_gt in Hlt. congruence.
      * rewrite ascii_compare_refl in Hcd. done.
    + split; [|done]. intros _. apply gt_head. by apply ascii_compare_gt.
Qed.

Lemma Str_gt_StrGt a b : Str.gt a b = true <-> StrGt a b.
Proof.
  unfold Str.gt. rewrite <- compare_gt_StrGt.
  destruct (String.compare a b); split; done.
Qed.

Lemma gt_Some_iff x y :
  gt x y = true <-> exists a b, x = Some a /\ y = Some b /\ StrGt a b.
Proof.
  destruct x as [a|], y as [b|]; simpl.
  - rewrite Str_gt_StrGt. split; [by exists a, b|]. by intros (? & ? & [= ->] & [= ->] & ?).
  - split; [done|]. by intros (? & ? & _ & ? & _).
  - split; [done|]. by intros (? & ? & ? & _).
  - split; [done|]. by intros (? & ? & ? & _).
Qed.

Lemma truthy_iff s : Str.truthy s = true <-> s <> "".
Proof.
  unfold Str.truthy. destruct (String.eqb_spec s ""); split; simpl; try done.
Qed.

(** On numbers written with as many digits, the order of the strings is
    the order of the numbers. *)
Lemma number_from_pow s : forall acc,
  number_from acc s = (acc * 10 ^ N.of_nat (String.length s) + number s)%N.
Proof.
  unfold number. induction s as [|c s IH]; intros acc.
  - simpl. lia.
  - cbn [number_from String.length]. rewrite IH, (IH (0 * 10 + digit_value c)%N).
    rewrite Nat2N.inj_succ, N.pow_succ_r'. lia.
Qed.

Lemma number_cons c s :
  number (String c s) = (digit_value c * 10 ^ N.of_nat (String.length s) + number s)%N.
Proof. unfold number at 1. cbn [number_from]. rewrite number_from_pow. lia. Qed.

Lemma decimal_value c : decimal c -> (48 <= Regex.code c /\ digit_value c <= 9)%N.
Proof.
  intros H. apply digit_decimal in H. unfold digit in H.
  apply andb_true_iff in H as [H1 H2]. apply N.leb_le in H1, H2.
  unfold digit_value. lia.
Qed.

Lemma number_bound s :
  Forall_chars decimal s -> (number s < 10 ^ N.of_nat (String.length s))%N.
Proof.
  induction s as [|c s IH]; [simpl; unfold number; simpl; lia|].
  intros [Hc Hs]. rewrite number_cons. cbn [String.length].
  rewrite Nat2N.inj_succ, N.pow_succ_r'. specialize (IH Hs).
  apply decimal_value in Hc as [_ Hc]. nia.
Qed.

Lemma code_inj c d : Regex.code c = Regex.code d -> c = d.
Proof.
  unfold Regex.code. intros H.
  by rewrite <- (ascii_N_embedding c), <- (ascii_N_embedding d), H.
Qed.

Lemma StrGt_number a : forall b,
  Forall_chars decimal a -> Forall_chars decimal b ->
  String.length a = String.length b ->
  StrGt a b <-> (number b < number a)%N.
Proof.
  induction a as [|c a IH]; intros [|d b] Ha Hb Hlen; try discriminate Hlen.
  - split; [inversion 1|]. unfold number. simpl. lia.
  - destruct Ha as [Hc Ha], Hb as [Hd Hb]. injection Hlen as Hlen.
    rewrite !number_cons, <- Hlen.
    pose proof (number_bound a Ha) as Ba. pose proof (number_bound b Hb) as Bb.
    rewrite <- Hlen in Bb.
    apply decimal_value in Hc as [Hc _], Hd as [Hd _].
    specialize (IH b Ha Hb Hlen). unfold digit_value.
    set (P := (10 ^ N.of_nat (String.length a))%N) in *.
    split.
    + inversion 1 as [ | ? ? ? ? Hlt | ? ? ? Hgt]; subst.
      * nia.
      * apply IH in Hgt. nia.
    + intros Hlt. destruct (N.lt_trichotomy (Regex.code d) (Regex.code c)) as [H|[H|H]].
      * by apply gt_head.
      * apply code_inj in H as ->. apply gt_tail, IH. nia.
      * nia.
Qed.

Lemma gt_newer x y : aligned x y -> gt x y = true <-> newer x y.
Proof.
  intros Hal. rewrite gt_Some_iff. unfold newer.
  split; intros (a & b & -> & -> & H); exists a, b; (split; [done|]); (split; [done|]);
    destruct Hal as ([_ Ha] & [_ Hb] & Hlen); by apply (StrGt_number a b Ha Hb Hlen).
Qed.

Lemma newer_truthy x y :
  aligned x y -> newer x y -> Str.truthy_opt x = true /\ Str.truthy_opt y = true.
Proof.
  intros Hal (a & b & -> & -> & _). destruct Hal as ([Ha _] & [Hb _] & _).
  unfold Str.truthy_opt. by rewrite !truthy_iff.
Qed.

(** ** The alert level, case by case *)

#[local] Arguments bumped : simpl never.
#[local] Arguments bumped_major : simpl never.
#[local] Arguments Str.split : simpl never.
#[local] Arguments Str.truthy_opt : simpl never.

Lemma alertLevel_verdict l st : alertLevel l st = (verdict l, st).
Proof.
  destruct l as [|[va ea na ca] [|[vb eb nb cb] rest]]; [done..|].
  unfold alertLevel, verdict, both_electron, shows_change, resolved, bind.
  cbn.
  destruct (Str.truthy_opt ea && Str.truthy_opt eb) eqn:G.
  - apply andb_true_iff in G as [Ga Gb].
    destruct ea as [ea|]; [|discriminate Ga]. destruct eb as [eb|]; [|discriminate Gb].
    destruct na as [na|], nb as [nb|]; try done.
    destruct ca as [ca|], cb as [cb|]; try done.
    cbn.
    destruct (bumped (Str.split "." ea) (Str.split "." eb)),
             (bumped (Str.split "." na) (Str.split "." nb)),
             (bumped_major (Str.split "." ca) (Str.split "." cb));
      cbn; try (destruct rest; reflexivity).
    destruct rest as [|[vc ec nc cc] rest]; [done|].
    cbn.
    destruct ec as [ec|], nc as [nc|], cc as [cc|]; try done.
    cbn.
    destruct (bumped (Str.split "." eb) (Str.split "." ec)),
             (bumped (Str.split "." nb) (Str.split "." nc)),
             (bumped_major (Str.split "." cb) (Str.split "." cc)); reflexivity.
  - cbn.
    destruct rest as [|[vc ec nc cc] rest]; [done|].
    cbn.
    destruct eb as [eb|], nb as [nb|], cb as [cb|]; try done;
    destruct ec as [ec|], nc as [nc|], cc as [cc|]; try done.
    cbn.
    destruct (bumped (Str.split "." eb) (Str.split "." ec)),
             (bumped (Str.split "." nb) (Str.split "." nc)),
             (bumped_major (Str.split "." cb) (Str.split "." cc)); reflexivity.
Qed.

(** ** Requests and pages *)

Lemma issued_issued a b st : issued b (issued a st) = issued (a ++ b) st.
Proof. unfold issued, with_requests. simpl. by rewrite app_assoc. Qed.

Lemma request_ok {T} (get : string -> option T) uri res st :
  get uri = Some res -> request get uri st = (Ret res, issued [uri] st).
Proof. intros H. unfold request. by rewrite H. Qed.

Lemma request_fail {T} (get : string -> option T) uri st :
  get uri = None -> request get uri st = (Throw (RequestError uri), issued [uri] st).
Proof. intros H. unfold request. by rewrite H. Qed.

(** One level of [githubRequest], spelled out. *)
Lemma githubRequest_S w fuel uri st :
  githubRequest w (S fuel) uri st =
  match get_tags w uri with
  | Some response =>
      match next_link (link response) with
      | Some next =>
          match githubRequest w fuel next (issued [uri] st) with
          | (Ret res, st') => (Ret (page_body response :: res), st')
          | (Throw e, st') => (Throw (TransformError uri e), st')
          | (OutOfFuel, st') => (OutOfFuel, st')
          end
      | None => (Ret [page_body response], issued [uri] st)
      end
  | None =>
      match next_link (refused_link w uri) with
      | Some next =>
          match githubRequest w fuel next (issued [uri] st) with
          | (Ret _, st') => (Throw (RequestError uri), st')
          | (Throw e, st') => (Throw (TransformError uri e), st')
          | (OutOfFuel, st') => (OutOfFuel, st')
          end
      | None => (Throw (RequestError uri), issued [uri] st)
      end
  end.
Proof.
  cbn [githubRequest]. unfold bind at 1. cbn [modify].
  change (with_requests (fun r => r ++ [uri]) st) with (issued [uri] st).
  destruct (get_tags w uri) as [response|].
  - destruct (next_link (link response)) as [next|]; [|done].
    unfold bind, transforming.
    by destruct (githubRequest w fuel next (issued [uri] st)) as [[res|e|] st'].
  - destruct (next_link (refused_link w uri)) as [next|]; [|done].
    unfold bind, transforming.
    by destruct (githubRequest w fuel next (issued [uri] st)) as [[res|e|] st'].
Qed.

Lemma githubRequest_chain w uri bodies uris :
  Chain w uri bodies uris ->
  forall fuel st, length uris <= fuel ->
    githubRequest w fuel uri st = (Ret bodies, issued uris st).
Proof.
  induction 1 as [uri page Hget Hnext | uri page next bodies uris Hget Hnext _ IH];
    intros [|fuel] st Hfuel; simpl in Hfuel; try lia.
  - rewrite githubRequest_S, Hget, Hnext. done.
  - rewrite githubRequest_S, Hget, Hnext, IH by lia. by rewrite issued_issued.
Qed.

Lemma githubRequest_ret w fuel : forall uri st bodies st',
  githubRequest w fuel uri st = (Ret bodies, st') ->
  exists uris, Chain w uri bodies uris /\ length uris <= fuel /\ st' = issued uris st.
Proof.
  induction fuel as [|fuel IH]; intros uri st bodies st' H; [done|].
  rewrite githubRequest_S in H.
  destruct (get_tags w uri) as [page|] eqn:Hget.
  2: { destruct (next_link (refused_link w uri)) as [next|]; [|done].
       by destruct (githubRequest w fuel next _) as [[res| |] st1]. }
  destruct (next_link (link page)) as [next|] eqn:Hnext.
  - destruct (githubRequest w fuel next _) as [[res| |] st1] eqn:Hrec; try done.
    injection H as <- <-. apply IH in Hrec as (uris & Hc & Hlen & ->).
    exists (uri :: uris). split; [by econstructor|]. split; [simpl; lia|].
    by rewrite issued_issued.
  - injection H as <- <-. exists [uri]. split; [by constructor|]. split; [simpl; lia|done].
Qed.

(** ** Tags and the cache *)

(** The filter of [fetchVSCodeVersion]. *)
Lemma push_tags_filter res : forall tags,
  push_tags tags res =
  tags ++ List.filter (Regex.test Pat.tag) (map name (concat res)).
Proof.
  assert (Hin : forall page tags,
    fold_left (fun tags tag =>
                 if Regex.test Pat.tag (name tag) then tags ++ [name tag] else tags)
              page tags =
    tags ++ List.filter (Regex.test Pat.tag) (map name page)).
  { induction page as [|t page IH]; intros tags; simpl.
    - by rewrite app_nil_r.
    - rewrite IH. destruct (Regex.test Pat.tag (name t)); [|done].
      by rewrite <- app_assoc. }
  unfold push_tags. induction res as [|page res IH]; intros tags; simpl.
  - by rewrite app_nil_r.
  - rewrite IH, Hin, map_app, List.filter_app, app_assoc. done.
Qed.

(** [indexOf] and membership. *)
Lemma indexOf_from_In xs x : forall i,
  (0 <= i)%Z -> ((0 <=? indexOf_from i xs x)%Z = true <-> In x xs).
Proof.
  induction xs as [|y ys IH]; intros i Hi; simpl.
  - split; [done|tauto].
  - destruct (String.eqb_spec y x) as [->|Hne].
    + split; [tauto|]. intros _. by apply Z.leb_le.
    + rewrite IH by lia. split; [tauto|]. intros [?|?]; [done|tauto].
Qed.

Lemma indexOf_In xs x : (0 <=? indexOf xs x)%Z = true <-> In x xs.
Proof. by apply indexOf_from_In. Qed.

Lemma cached_names (l : list VSCode) : forall acc,
  fold_left (fun cached v => cached ++ [vscode v]) l acc = acc ++ map vscode l.
Proof.
  induction l as [|v l IH]; intros acc; simpl.
  - by rewrite app_nil_r.
  - by rewrite IH, <- app_assoc.
Qed.

Lemma versions_loop_cached w cached vs : forall acc st,
  (forall v, In v vs -> In v cached) ->
  versions_loop w vs cached acc st = (Ret acc, st).
Proof.
  induction vs as [|v vs IH]; intros acc st Hall; simpl; [done|].
  assert ((0 <=? indexOf cached v)%Z = true) as ->.
  { apply indexOf_In, Hall. by left. }
  apply IH. intros v' ?. apply Hall. by right.
Qed.

Lemma IndexTs_versions_loop_cached w cached vs : forall acc st,
  (forall v, In v vs -> In v cached) ->
  IndexTs.versions_loop w vs cached acc st = (Ret acc, st).
Proof.
  induction vs as [|v vs IH]; intros acc st Hall; simpl; [done|].
  assert ((0 <=? indexOf cached v)%Z = true) as ->.
  { apply indexOf_In, Hall. by left. }
  apply IH. intros v' ?. apply Hall. by right.
Qed.

(** ** Nothing posts but [postTweet] *)

Create HintDb quiet.

Lemma quiet_ret {A} (a : A) : quiet (ret a).
Proof. by intros st. Qed.

Lemma quiet_throw {A} e : quiet (@throw A e).
Proof. by intros st. Qed.

Lemma quiet_bind {A B} (m : M A) (k : A -> M B) :
  quiet m -> (forall a, quiet (k a)) -> quiet (bind m k).
Proof.
  intros Hm Hk st. unfold bind. specialize (Hm st).
  destruct (m st) as [[a|e|] st']; simpl in *; [|done..].
  by rewrite Hk.
Qed.

Lemma quiet_request {T} (get : string -> option T) uri : quiet (request get uri).
Proof. intros st. unfold request. by destruct (get uri). Qed.

Lemma quiet_console_log s : quiet (console_log s).
Proof. by intros st. Qed.

Lemma quiet_tweet_append s : quiet (tweet_append s).
Proof. by intros st. Qed.

Lemma quiet_writeFileSync f d : quiet (writeFileSync f d).
Proof. by intros st. Qed.

Lemma quiet_issue uri : quiet (modify (with_requests (fun r => r ++ [uri]))).
Proof. by intros st. Qed.

Lemma quiet_transforming {A} uri (m : M A) : quiet m -> quiet (transforming uri m).
Proof.
  intros Hm st. unfold transforming. specialize (Hm st).
  by destruct (m st) as [[a|e|] st'].
Qed.

#[local] Hint Resolve quiet_ret quiet_throw quiet_request quiet_console_log
  quiet_tweet_append quiet_writeFileSync quiet_issue : quiet.

Ltac quiet_step :=
  match goal with
  | |- quiet (bind _ _) => apply quiet_bind; [|intros ?]
  | |- quiet (transforming _ _) => apply quiet_transforming
  | |- quiet (match ?x with _ => _ end) => destruct x
  | |- quiet _ => solve [auto with quiet]
  end.

Lemma quiet_githubRequest w fuel : forall uri, quiet (githubRequest w fuel uri).
Proof.
  induction fuel as [|fuel IH]; intros uri; simpl; [by intros st|].
  repeat quiet_step.
Qed.

Lemma quiet_getElectron w v : quiet (getElectron w v).
Proof. unfold getElectron, read_electronVersion, yarnc_match. repeat quiet_step. Qed.

Lemma quiet_getChromeVersion w e : quiet (getChromeVersion w e).
Proof. unfold getChromeVersion. repeat quiet_step. Qed.

Lemma quiet_getNodeVersion w e : quiet (getNodeVersion w e).
Proof. unfold getNodeVersion. repeat quiet_step. Qed.

#[local] Hint Resolve quiet_githubRequest quiet_getElectron quiet_getChromeVersion
  quiet_getNodeVersion : quiet.

Lemma quiet_resolve w v : quiet (resolve w v).
Proof. unfold resolve. repeat quiet_step. Qed.

Lemma quiet_versions_loop w cached vs : forall acc, quiet (versions_loop w vs cached acc).
Proof.
  induction vs as [|v vs IH]; intros acc; simpl; [auto with quiet|].
  pose proof (quiet_resolve w v). repeat quiet_step.
Qed.

Lemma quiet_getVersions w fuel : quiet (getVersions w fuel).
Proof.
  unfold getVersions, fetchVSCodeVersion.
  pose proof (quiet_versions_loop w). repeat quiet_step.
Qed.

Lemma quiet_alertLevel l : quiet (alertLevel l).
Proof. intros st. by rewrite alertLevel_verdict. Qed.

Lemma quiet_getIssues w : quiet (getIssues w).
Proof. unfold getIssues. repeat quiet_step. Qed.

Lemma quiet_saveToFile w l : quiet (saveToFile w l).
Proof.
  unfold saveToFile. apply quiet_bind; [apply quiet_alertLevel|intros n].
  apply quiet_bind; [auto with quiet|intros _].
  apply quiet_bind; [apply quiet_getIssues|intros md].
  repeat quiet_step.
Qed.

Lemma quiet_before_post w fuel : quiet (before_post w fuel).
Proof.
  unfold before_post. apply quiet_bind; [apply quiet_getVersions|intros l].
  apply quiet_bind; [apply quiet_saveToFile|intros _]. auto with quiet.
Qed.

(** ** Severity *)

Lemma completes_verdict l : completes l = true -> verdict l = Ret (severity l).
Proof.
  destruct l as [|a [|b rest]]; [done..|]. unfold completes, verdict, severity.
  destruct (both_electron a b), (present (node a) && present (node b) &&
    present (chrome a) && present (chrome b)); cbn; try done.
  - destruct (shows_change a b); [done|]. destruct rest as [|c rest]; [done|].
    cbn. by intros ->.
  - destruct rest as [|c rest]; [done|]. by intros ->.
  - destruct rest as [|c rest]; [done|]. by intros ->.
Qed.

Lemma stalls_verdict l : completes l = false -> verdict l = Throw TypeError.
Proof.
  destruct l as [|a [|b rest]]; [done..|]. unfold completes, verdict.
  destruct (both_electron a b), (present (node a) && present (node b) &&
    present (chrome a) && present (chrome b)); cbn; try done.
  - destruct (shows_change a b); [by destruct rest|]. destruct rest as [|c rest]; [done|].
    cbn. by intros ->.
  - destruct rest as [|c rest]; [done|]. by intros ->.
  - destruct rest as [|c rest]; [done|]. by intros ->.
Qed.

Lemma resolved_completes l : forallb resolved l = true -> completes l = true.
Proof.
  destruct l as [|a [|b rest]]; [done..|]. cbn [forallb completes].
  rewrite !andb_true_iff. intros (Ha & Hb & Hrest).
  assert (present (node a) && present (node b) &&
          present (chrome a) && present (chrome b) = true) as ->.
  { unfold resolved in Ha, Hb. rewrite !andb_true_iff in Ha, Hb.
    destruct Ha as [[_ ->] ->], Hb as [[_ ->] ->]. done. }
  rewrite orb_true_r. cbn.
  destruct rest as [|c rest]; [done|]. cbn in Hrest.
  apply andb_true_iff in Hrest as [Hc _]. rewrite Hb, Hc.
  by rewrite orb_true_r.
Qed.

(** ** Writing the report and the snapshot *)

Lemma saveToFile_ret_snapshot w l st st' :
  saveToFile w l st = (Ret tt, st') ->
  files st' !! "version.json" = Some (Json (shift l)).
Proof.
  unfold saveToFile, bind. rewrite alertLevel_verdict.
  destruct (verdict l) as [n| |]; try done.
  cbn [tweet_append modify]. unfold getIssues, bind, request.
  destruct (get_issues w issue_uri); [|done].
  cbn [tweet_append modify writeFileSync]. intros [= <-].
  cbn. by rewrite lookup_insert_eq.
Qed.

Lemma IndexTs_saveToFile_snapshot l st :
  exists st', IndexTs.saveToFile l st = (Ret tt, st') /\
              files st' !! "version.json" = Some (Json l).
Proof.
  unfold IndexTs.saveToFile, bind, writeFileSync, modify.
  eexists. split; [reflexivity|]. cbn. by rewrite lookup_insert_eq.
Qed.

(** ** The run without an endpoint *)

Lemma start_before_post w fuel st :
  start w fuel st =
  match before_post w fuel st with
  | (Ret _, s1) => (postTweet w ;; console_log "Finished!") s1
  | (Throw e, s1) => (Throw e, s1)
  | (OutOfFuel, s1) => (OutOfFuel, s1)
  end.
Proof.
  unfold start, before_post, bind.
  destruct (getVersions w fuel st) as [[l|e|] s0]; [|done..].
  destruct (saveToFile w l s0) as [[[]|e|] s1]; [|done..].
  done.
Qed.

Lemma postTweet_absent w st :
  Str.truthy_opt (TWEET_ENDPOINT (env w)) = false ->
  postTweet w st = (Ret tt, with_console (fun c => c ++ ["No tweet endpoint found."]) st).
Proof.
  unfold postTweet, Str.truthy_opt. destruct (TWEET_ENDPOINT (env w)) as [ep|]; [|done].
  by intros ->.
Qed.

Lemma postTweet_cases w st :
  if unsendable (TWEET_ENDPOINT (env w))
  then postTweet w st = (Throw TypeError, st)
  else exists st',
         postTweet w st = (Ret tt, st') /\ files st' = files st /\
         requests st' = requests st.
Proof.
  unfold postTweet, unsendable. destruct (TWEET_ENDPOINT (env w)) as [ep|]; [|by eexists].
  destruct (Str.truthy ep); cbn [negb andb]; [|by eexists].
  destruct (Regex.exec Pat.endpoint ep) as [groups|]; [|by eexists].
  unfold bind, get_state, https_request.
  destruct (Str.all path_char _ && Str.all header_char _); cbn [negb]; [by eexists|done].
Qed.

Lemma postTweet_files w st : files (snd (postTweet w st)) = files st.
Proof.
  pose proof (postTweet_cases w st) as H.
  destruct (unsendable _); [by rewrite H|]. by destruct H as (st' & -> & Hf & _).
Qed.

Lemma before_post_endpoint ep w fuel st :
  before_post (with_endpoint ep w) fuel st = before_post w fuel st.
Proof. reflexivity. Qed.

(** ** One turn of the version loop *)

Lemma getChromeVersion_answered w e st h :
  get_text w (chrome_uri w e) = Some h ->
  exists c, getChromeVersion w e st = (Ret c, issued [chrome_uri w e] st).
Proof.
  intros H. unfold getChromeVersion, bind. rewrite (request_ok _ _ _ _ H).
  destruct (Regex.exec Pat.chrome_version h); by eexists.
Qed.

Lemma getChromeVersion_failed w e st :
  get_text w (chrome_uri w e) = None ->
  getChromeVersion w e st = (Throw (RequestError (chrome_uri w e)), issued [chrome_uri w e] st).
Proof. intros H. unfold getChromeVersion, bind. by rewrite (request_fail _ _ _ H). Qed.

Lemma getNodeVersion_requests w e st :
  exists more, requests (snd (getNodeVersion w e st)) = requests st ++ node_uri w e :: more.
Proof.
  unfold getNodeVersion, bind at 1, request at 1.
  destruct (get_submodule w (node_uri w e)) as [sub|]; [|by exists []].
  destruct (sha sub) as [nodeSha|]; [|by exists []].
  destruct (negb (Str.truthy nodeSha)); [by exists []|].
  unfold bind, request.
  match goal with |- context [get_text w ?u] =>
    exists [u]; destruct (get_text w u) as [h|] end.
  - destruct (Regex.exec Pat.node_major h), (Regex.exec Pat.node_minor h),
             (Regex.exec Pat.node_patch h); cbn; by rewrite <- app_assoc.
  - cbn. by rewrite <- app_assoc.
Qed.

Lemma resolve_after_electron w version st e st1 :
  getElectron w version
    (with_console (fun c => c ++ ["Fetching " +:+ version +:+ "..."]) st) = (Ret e, st1) ->
  resolve w version st =
  (chromeVersion <- getChromeVersion w e ;;
   nodeVersion <- getNodeVersion w e ;;
   ret {| vscode := if String.eqb version "master" then "Latest" else version;
          electron := e; chrome := chromeVersion; node := nodeVersion |}) st1.
Proof.
  intros He. unfold resolve, bind at 1. cbn [console_log modify].
  unfold bind at 1. by rewrite He.
Qed.

Lemma IndexTs_resolve_requests w version st :
  snd (IndexTs.resolve w version st) = snd (resolve w version st).
Proof.
  unfold IndexTs.resolve, resolve, bind. cbn [console_log modify].
  destruct (getElectron w version _) as [[e|err|] st1]; [|done..].
  destruct (getChromeVersion w e st1) as [[c|err|] st2]; [|done..].
  by destruct (getNodeVersion w e st2) as [[n|err|] st3].
Qed.

(** ** Components and truthiness *)

(** A split always has a first component. *)
Lemma split_go_head c s : forall cur, exists x, Str.split_go c cur s !! 0%nat = Some x.
Proof.
  induction s as [|y s IH]; intros cur; simpl; [by eexists|].
  destruct (Ascii.eqb y c); [by eexists|]. apply IH.
Qed.

Lemma split_head c s : exists x, Str.split c s !! 0%nat = Some x.
Proof. apply split_go_head. Qed.

Lemma truthy_opt_iff o : Str.truthy_opt o = true <-> exists s, o = Some s /\ s <> "".
Proof.
  destruct o as [s|]; unfold Str.truthy_opt.
  - rewrite truthy_iff. split; [by exists s|]. by intros (? & [= ->] & ?).
  - split; [done|]. by intros (? & ? & _).
Qed.

(** ** Reading the link header *)

Lemma Matches_Char_eats c st st' : Matches (Char c) st st' -> Eats (String c "") st st'.
Proof. intros (s' & Hr & ->). split; [done|]. split; [simpl; lia|done]. Qed.

Lemma Matches_Star_eats g p st st' :
  Matches (Star g p) st st' -> exists u, Str.all p u = true /\ Eats u st st'.
Proof. intros (u & Hu & H). by exists u. Qed.

Lemma Eats_trans u v st mid st' :
  Eats u st mid -> Eats v mid st' -> Eats (u +:+ v) st st'.
Proof.
  intros (Hr & Hp & Hc) (Hr' & Hp' & Hc'). split; [|split].
  - by rewrite Hr, Hr', app_assoc_str.
  - rewrite Hp', Hp, app_length_str. lia.
  - by rewrite Hc', Hc.
Qed.

Lemma Matches_Lit_eats s : forall st st', Matches (Lit s) st st' -> Eats s st st'.
Proof.
  induction s as [|c s IH]; intros st st' H; simpl in H.
  - subst. split; [done|]. split; [simpl; lia|done].
  - destruct H as (mid & H1 & H2).
    apply Matches_Char_eats in H1. apply IH in H2.
    apply (Eats_trans _ _ _ _ _ H1 H2).
Qed.

Lemma take_app u : forall x, Str.take (String.length u) (u +:+ x) = u.
Proof.
  induction u as [|c u IH]; intros x; simpl; [by destruct x|]. by rewrite IH.
Qed.

(** String facts: where a run of one class ends. *)
Lemma lead_unique (P : ascii -> bool) a : forall b c d x y,
  Str.all P a = true -> Str.all P b = true -> P c = false -> P d = false ->
  a +:+ String c x = b +:+ String d y -> a = b /\ c = d /\ x = y.
Proof.
  induction a as [|e a IH]; intros [|e' b] c d x y Ha Hb Hc Hd H; simpl in *;
    injection H as H1 H2; subst.
  - done.
  - apply andb_true_iff in Hb as [Hb _]. congruence.
  - apply andb_true_iff in Ha as [Ha _]. congruence.
  - apply andb_true_iff in Ha as [_ Ha]. apply andb_true_iff in Hb as [_ Hb].
    destruct (IH _ _ _ _ _ Ha Hb Hc Hd H2) as (-> & -> & ->). done.
Qed.

Lemma all_app p a b : Str.all p (a +:+ b) = Str.all p a && Str.all p b.
Proof. induction a as [|c a IH]; simpl; [done|]. by rewrite IH, andb_assoc. Qed.

Lemma first_unique (P : ascii -> bool) a : forall b c d x y,
  Str.all P a = true -> P c = false -> P d = false -> Str.all P x = true ->
  a +:+ String c x = b +:+ String d y -> a = b /\ c = d /\ x = y.
Proof.
  induction a as [|e a IH]; intros [|e' b] c d x y Ha Hc Hd Hx H; simpl in *;
    injection H as H1 H2; subst.
  - done.
  - rewrite all_app in Hx. simpl in Hx. rewrite Hd in Hx.
    by rewrite andb_false_r in Hx.
  - apply andb_true_iff in Ha as [Ha _]. congruence.
  - apply andb_true_iff in Ha as [_ Ha].
    destruct (IH _ _ _ _ _ Ha Hc Hd Hx H2) as (-> & -> & ->). done.
Qed.

Lemma last_unique (P : ascii -> bool) q a : forall b ws,
  P q = false -> Str.all P ws = true ->
  a +:+ String q "" = b +:+ String q ws -> ws = "" /\ b = a.
Proof.
  induction a as [|e a IH]; intros [|e' b] ws Hq Hws H; simpl in *.
  - by injection H as <-.
  - injection H as _ H. by destruct b.
  - injection H as _ H. subst ws. rewrite all_app in Hws. simpl in Hws.
    rewrite Hq in Hws. by rewrite andb_false_r in Hws.
  - injection H as -> H. destruct (IH _ _ Hq Hws H) as [-> ->]. done.
Qed.

Lemma run_Star_complete g p u st s' k :
  Str.all p u = true -> m_rest st = u +:+ s' ->
  is_Some (k (MState (m_pos st + String.length u) s' (m_caps st))) ->
  is_Some (run (Star g p) st k).
Proof.
  intros Hu Hr Hk. simpl. rewrite Hr.
  destruct g; [by apply star_greedy_complete | by apply star_lazy_complete].
Qed.

Lemma search_from_first r pos s st :
  attempt r pos s = Some st -> search_from r pos s = Some (pos, st).
Proof. intros H. destruct s; simpl; by rewrite H. Qed.

Lemma inner_dot u : Str.all inner u = true -> Str.all dot u = true.
Proof.
  induction u as [|c u IH]; simpl; [done|]. unfold inner at 1.
  rewrite !andb_true_iff. intros [[[-> _] _] H]. auto.
Qed.

Lemma inner_no_gt u : Str.all inner u = true -> Str.all (fun c => negb (Ascii.eqb c ">")) u = true.
Proof.
  induction u as [|c u IH]; simpl; [done|]. unfold inner at 1.
  rewrite !andb_true_iff. intros [[[_ ->] _] H]. auto.
Qed.

Lemma link_attempt e :
  well_formed e = true -> is_Some (attempt Pat.link 0 (attribute e)).
Proof.
  unfold well_formed. rewrite !andb_true_iff. intros [[Hpad Huri] Hrel].
  apply inner_dot in Huri, Hrel.
  unfold attempt, Pat.link, attribute. cbn [Seq].
  rewrite run_Group, run_Cat. change (run Bol ?st ?k) with (k st). cbv beta.
  rewrite run_Cat. eapply run_Star_complete; [exact Hpad|reflexivity|].
  rewrite run_Cat. eapply run_Char_complete; [reflexivity|]. cbv beta.
  rewrite run_Cat, run_Group. eapply run_Star_complete; [exact Huri|reflexivity|].
  rewrite run_Cat. eapply (run_Lit_complete ">;"); [reflexivity|].
  rewrite run_Cat. eapply (run_Star_complete _ _ " "); [reflexivity|reflexivity|].
  rewrite run_Cat. eapply (run_Lit_complete "rel="); [reflexivity|].
  rewrite run_Cat. eapply run_Char_complete; [reflexivity|]. cbv beta.
  rewrite run_Cat, run_Group. eapply run_Star_complete; [exact Hrel|reflexivity|].
  rewrite run_Cat. eapply run_Char_complete; [reflexivity|]. cbv beta.
  rewrite run_Cat. eapply (run_Star_complete _ _ ""); [reflexivity|reflexivity|].
  by cbn.
Qed.

Lemma link_groups e res :
  well_formed e = true ->
  attempt Pat.link 0 (attribute e) = Some res ->
  m_caps res !! 1%nat = Some (e_uri e) /\ m_caps res !! 2%nat = Some (e_rel e).
Proof.
  unfold well_formed. rewrite !andb_true_iff. intros [[Hpad Huri] Hrel] H.
  unfold attempt in H. apply run_sound in H as (st' & H & [= <-]).
  destruct H as (mid & H & ->). unfold Pat.link in H. cbn [Seq] in H.
  destruct H as (s1 & [_ ->] & s2 & Hws1 & s3 & Hlt & s4 & Hg1 & s5 & Hsep &
                 s6 & Hws2 & s7 & Hrel' & s8 & Hq1 & s9 & Hg2 & s10 & Hq2 &
                 s11 & Hws3 & s12 & [Hend ->] & ->).
  apply Matches_Star_eats in Hws1 as (ws1 & Hws1 & E1).
  apply Matches_Char_eats in Hlt.
  apply (Matches_Lit_eats ">;") in Hsep.
  apply Matches_Star_eats in Hws2 as (ws2 & Hws2 & E2).
  apply (Matches_Lit_eats "rel=") in Hrel'.
  apply Matches_Char_eats in Hq1, Hq2.
  apply Matches_Star_eats in Hws3 as (ws3 & Hws3 & E3).
  destruct Hg1 as (m1 & Hm1 & ->). apply Matches_Star_eats in Hm1 as (g1 & Hg1 & G1).
  destruct Hg2 as (m2 & Hm2 & ->). apply Matches_Star_eats in Hm2 as (g2 & Hg2 & G2).
  destruct E1 as (R1 & P1 & C1), Hlt as (R2 & P2 & C2), G1 as (R3 & P3 & C3),
    Hsep as (R4 & P4 & C4), E2 as (R5 & P5 & C5), Hrel' as (R6 & P6 & C6),
    Hq1 as (R7 & P7 & C7), G2 as (R8 & P8 & C8), Hq2 as (R9 & P9 & C9),
    E3 as (R10 & P10 & C10).
  cbn [m_rest m_pos m_caps set_cap] in *.
  (* the input, cut where the passes cut it *)
  rewrite Hend in R10. rewrite R10 in R9. rewrite R9 in R8. rewrite R8 in R7.
  rewrite R7 in R6. rewrite R6 in R5. rewrite R5 in R4. rewrite R4 in R3.
  rewrite R3 in R2. rewrite R2 in R1. unfold attribute in R1. simpl in R1.
  apply (lead_unique space) in R1 as (<- & _ & R1); [|done|done|done|done].
  apply (first_unique (fun c => negb (Ascii.eqb c ">"))) in R1 as (<- & _ & R1);
    [|by apply inner_no_gt|done|done|].
  2:{ simpl. rewrite all_app. simpl. rewrite (inner_no_gt _ Hrel). done. }
  injection R1 as R1.
  assert (ws2 = " ") as ->.
  { destruct ws2 as [|c ws2]; [done|]. simpl in R1. injection R1 as <- R1.
    destruct ws2 as [|c ws2]; [done|]. simpl in R1, Hws2. injection R1 as <- R1.
    done. }
  simpl in R1. injection R1 as R1.
  rewrite app_empty_r in *. unfold Str.DQ in R1.
  apply (last_unique space) in R1 as [-> ->]; [|done|done].
  split.
  - rewrite lookup_insert_ne by done. rewrite C10, C9, lookup_insert_ne by done.
    rewrite C8, C7, C6, C5, C4, lookup_insert_eq. f_equal.
    rewrite R3, P3. replace (m_pos s3 + String.length (e_uri e) - m_pos s3)
      with (String.length (e_uri e)) by lia. apply take_app.
  - rewrite lookup_insert_ne by done. rewrite C10, C9, lookup_insert_eq. f_equal.
    rewrite R8, P8. replace (m_pos s8 + String.length (e_rel e) - m_pos s8)
      with (String.length (e_rel e)) by lia.
    apply take_app.
Qed.

Lemma link_exec e :
  well_formed e = true ->
  exists groups,
    exec Pat.link (attribute e) = Some groups /\
    groups !! 1%nat = Some (e_uri e) /\ groups !! 2%nat = Some (e_rel e).
Proof.
  intros Hwf. destruct (link_attempt e Hwf) as [res Hres].
  exists (m_caps res). unfold exec. rewrite (search_from_first _ _ _ _ Hres).
  split; [done|]. by apply link_groups.
Qed.

(** Splitting at commas what was joined with commas. *)
Lemma rev_app_rev_app a : forall b c,
  String.rev_app (String.rev_app a b) c = String.rev_app b (a +:+ c).
Proof. induction a as [|x a IH]; intros b c; simpl; [done|]. by rewrite IH. Qed.

Lemma rev_rev_app a : String.rev (String.rev_app a "") = a.
Proof. unfold String.rev. rewrite rev_app_rev_app. simpl. apply app_empty_r. Qed.

Lemma split_go_free c a : forall cur rest,
  Str.all (fun x => negb (Ascii.eqb x c)) a = true ->
  Str.split_go c cur (a +:+ rest) = Str.split_go c (String.rev_app a cur) rest.
Proof.
  induction a as [|x a IH]; intros cur rest Ha; simpl in *; [done|].
  apply andb_true_iff in Ha as [Hx Ha]. apply negb_true_iff in Hx. rewrite Hx.
  by apply IH.
Qed.

Lemma split_join (l : list string) :
  Forall (fun a => Str.all (fun x => negb (Ascii.eqb x ",")) a = true) l ->
  l <> [] -> Str.split "," (join l) = l.
Proof.
  unfold Str.split. induction 1 as [|a l Ha Hl IH]; intros Hne; [done|].
  destruct l as [|b l].
  - simpl. rewrite <- (app_empty_r a) at 1. rewrite (split_go_free _ _ _ _ Ha).
    simpl. by rewrite rev_rev_app.
  - cbn [join]. rewrite (split_go_free _ _ _ _ Ha). simpl.
    rewrite rev_rev_app. f_equal. by apply IH.
Qed.

Lemma space_no_comma u :
  Str.all space u = true -> Str.all (fun x => negb (Ascii.eqb x ",")) u = true.
Proof.
  induction u as [|c u IH]; simpl; [done|]. rewrite !andb_true_iff.
  intros [Hc Hu]. split; [|auto].
  revert Hc. clear. destruct c as [[] [] [] [] [] [] [] []]; by vm_compute.
Qed.

Lemma inner_no_comma u :
  Str.all inner u = true -> Str.all (fun x => negb (Ascii.eqb x ",")) u = true.
Proof.
  induction u as [|c u IH]; simpl; [done|]. unfold inner at 1.
  rewrite !andb_true_iff. intros [[_ ->] H]. auto.
Qed.

Lemma attribute_no_comma e :
  well_formed e = true ->
  Str.all (fun x => negb (Ascii.eqb x ",")) (attribute e) = true.
Proof.
  unfold well_formed, attribute. rewrite !andb_true_iff. intros [[Hpad Huri] Hrel].
  rewrite !all_app, (space_no_comma _ Hpad), (inner_no_comma _ Huri),
    (inner_no_comma _ Hrel). done.
Qed.

Lemma next_of_attributes es :
  forallb well_formed es = true ->
  next_of (map attribute es) = first_next es.
Proof.
  induction es as [|e es IH]; simpl; [done|].
  rewrite andb_true_iff. intros [He Hes].
  destruct (link_exec e He) as (groups & -> & -> & ->).
  destruct (String.eqb (e_rel e) "next"); [done|]. by apply IH.
Qed.

(** X3.  On a header made of well-formed attributes joined by commas,
    the header reader of [githubRequest] finds the URI of the first
    attribute whose relation is [next]. *)
Lemma next_link_entries es :
  forallb well_formed es = true ->
  next_link (Some (join (map attribute es))) = first_next es.
Proof.
  intros Hes. unfold next_link. destruct es as [|e es]; [by vm_compute|].
  rewrite split_join; [by apply next_of_attributes| |done].
  apply Forall_forall. intros a Ha. apply list_elem_of_In, in_map_iff in Ha as (e' & <- & He').
  apply attribute_no_comma. apply forallb_forall with (x := e') in Hes; done.
Qed.

(** ** Sample runs *)

(** The sample headers are of that form. *)
Example sample_headers :
  Sample.header1 =
    join (map attribute
            [ {| e_pad := ""; e_uri := "https://api.github.com/p2"; e_rel := "next" |};
              {| e_pad := " "; e_uri := "https://api.github.com/p3"; e_rel := "last" |} ]) /\
  Sample.header2 =
    join (map attribute
            [ {| e_pad := ""; e_uri := "https://api.github.com/p1"; e_rel := "prev" |};
              {| e_pad := " "; e_uri := "https://api.github.com/p3"; e_rel := "next" |} ]).
Proof. split; reflexivity. Qed.

(** The end-to-end scenario of the specification: one cached release, the
    [master] candidate resolved in front of it, and a Warning. *)
Example end_to_end :
  fst (getVersions Sample.scenario 1 initial) =
    Ret [Sample.latest; Sample.release_1_2_0] /\
  fst (alertLevel [Sample.latest; Sample.release_1_2_0] initial) = Ret 2 /\
  fst (start Sample.scenario 1 initial) = Ret tt.
Proof. by vm_compute. Qed.

(** * The claims *)

(** ** C1: when a field counts as changed *)

(** C1, as claimed, fails.  With the components of the newer entry first:
    electron 1.0.0 against 2.0.0 differs in its first component and the
    source test does not fire; chrome 59.0.1 against 59.1.0 differs in its
    second component and the chrome test does not fire; the classifier
    leaves the alert level of such a lineage at 0.  And a second component
    that is present but empty is passed over: 1.5 against [1.] differs in
    it, and is greater in it, and the test does not fire. *)
Lemma changed_counterexample :
  Claimed.changed (Str.split "." "1.0.0") (Str.split "." "2.0.0") = true /\
  bumped (Str.split "." "1.0.0") (Str.split "." "2.0.0") = false /\
  Claimed.changed (Str.split "." "59.0.1") (Str.split "." "59.1.0") = true /\
  bumped_major (Str.split "." "59.0.1") (Str.split "." "59.1.0") = false /\
  alertLevel Sample.downgrade initial = (Ret 0, initial) /\
  Claimed.changed (Str.split "." "1.5") (Str.split "." "1.") = true /\
  bumped (Str.split "." "1.5") (Str.split "." "1.") = false.
Proof. by vm_compute. Qed.

(** C1, amended.  Where the components compared are numbers written
    with as many digits one as the other, the test of the classifier on
    the shell-runtime and on the JS-runtime field fires exactly when the
    first dot-separated component of the newer entry is the greater
    number, or both second components are there and that of the newer
    entry is the greater number; on the browser-engine field it fires
    exactly when the first component of the newer entry is the greater
    number.  A component that is smaller, or only different, does not
    count. *)
Theorem bumped_iff (a b : string) :
  aligned (Str.split "." a !! 0%nat) (Str.split "." b !! 0%nat) ->
  aligned (Str.split "." a !! 1%nat) (Str.split "." b !! 1%nat) ->
  (bumped (Str.split "." a) (Str.split "." b) = true <->
     newer (Str.split "." a !! 0%nat) (Str.split "." b !! 0%nat) \/
     newer (Str.split "." a !! 1%nat) (Str.split "." b !! 1%nat)) /\
  (bumped_major (Str.split "." a) (Str.split "." b) = true <->
     newer (Str.split "." a !! 0%nat) (Str.split "." b !! 0%nat)).
Proof.
  intros H0 H1. unfold bumped, bumped_major. split; [|by apply gt_newer].
  rewrite orb_true_iff, !andb_true_iff, (gt_newer _ _ H0), (gt_newer _ _ H1).
  split.
  - intros [H|[_ H]]; [by left|by right].
  - intros [H|H]; [by left|]. right. split; [|done]. by apply newer_truthy.
Qed.

Lemma bumped_iff_witness :
  bumped (Str.split "." "2.1.0") (Str.split "." "2.0.0") = true /\
  bumped (Str.split "." "2.0.0") (Str.split "." "2.1.0") = false /\
  bumped_major (Str.split "." "71.0") (Str.split "." "70.0") = true.
Proof.
  split; [|split].
  - apply (proj1 (bumped_iff "2.1.0" "2.0.0"
                    ltac:(vm_compute; repeat split; try done; auto 20)
                    ltac:(vm_compute; repeat split; try done; auto 20))).
    right. exists "1", "0". by vm_compute.
  - apply not_true_is_false. intros H.
    apply (proj1 (bumped_iff "2.0.0" "2.1.0"
                    ltac:(vm_compute; repeat split; try done; auto 20)
                    ltac:(vm_compute; repeat split; try done; auto 20))) in H.
    destruct H as [(x & y & Hx & Hy & H)|(x & y & Hx & Hy & H)];
      vm_compute in Hx, Hy; simplify_eq; by vm_compute in H.
  - apply (proj2 (bumped_iff "71.0" "70.0"
                    ltac:(vm_compute; repeat split; try done; auto 20)
                    ltac:(vm_compute; repeat split; try done; auto 20))).
    exists "71", "70". by vm_compute.
Defined.

(** ** C2: the severity of a lineage *)

(** C2, as claimed, fails.  The head of this lineage has no shell-runtime
    version and a newer JS runtime than the entry behind it: the pair
    shows a changed field, by the tests of the source as well as by the
    wording of the specification, yet the alert level stays 0. *)
Lemma severity_counterexample :
  alertLevel Sample.headless initial = (Ret 0, initial) /\
  Claimed.severity shows_change Sample.headless = 2 /\
  Claimed.severity Claimed.shows_change Sample.headless = 2.
Proof. by vm_compute. Qed.

(** C2, amended.  On every lineage on which no split meets an absent
    field, the classifier returns Warning (2) when entries 0 and 1 both have
    a non-empty shell-runtime version and show a changed field; otherwise
    Notice (1) when there are at least three entries and entries 1 and 2
    show a changed field; otherwise None (0).  A lineage with fewer than two
    entries yields None. *)
Theorem alertLevel_severity l st :
  completes l = true ->
  alertLevel l st = (Ret (severity l), st) /\
  (length l < 2 -> alertLevel l st = (Ret 0, st)).
Proof.
  intros Hc. rewrite alertLevel_verdict, (completes_verdict _ Hc). split; [done|].
  destruct l as [|a [|b rest]]; simpl; [done..|lia].
Qed.

(** The end-to-end scenario of the specification is a Warning, and one
    entry alone is None. *)
Lemma alertLevel_severity_witness :
  (alertLevel [Sample.latest; Sample.release_1_2_0] initial = (Ret 2, initial) /\
   (length [Sample.latest; Sample.release_1_2_0] < 2 ->
    alertLevel [Sample.latest; Sample.release_1_2_0] initial = (Ret 0, initial))) /\
  (alertLevel [Sample.latest] initial = (Ret 0, initial) /\
   (length [Sample.latest] < 2 -> alertLevel [Sample.latest] initial = (Ret 0, initial))).
Proof.
  split.
  - apply (alertLevel_severity [Sample.latest; Sample.release_1_2_0] initial).
    reflexivity.
  - apply (alertLevel_severity [Sample.latest] initial). reflexivity.
Defined.

(** [completes] is exact: off it, the classifier throws. *)
Lemma alertLevel_stalls l st :
  completes l = false -> alertLevel l st = (Throw TypeError, st).
Proof. intros Hc. by rewrite alertLevel_verdict, (stalls_verdict _ Hc). Qed.

(** The boundary cases listed by the specification. *)
Example classifier_boundary :
  alertLevel [Sample.release_1_2_0] initial = (Ret 0, initial) /\
  alertLevel [Sample.release_1_2_0; Sample.release_1_2_0] initial = (Ret 0, initial) /\
  alertLevel [Sample.latest; Sample.release_1_2_0] initial = (Ret 2, initial) /\
  alertLevel [Sample.latest; Sample.latest; Sample.release_1_2_0] initial =
    (Ret 1, initial).
Proof. by vm_compute. Qed.

(** ** C3: an entry without a JS-runtime version *)

(** C3 at its failing input: both entries have a shell-runtime version and
    the head has no JS-runtime version.  The split of the absent field
    throws, in the classifier and so in [saveToFile], before anything is
    written; the row of the report would have shown [n/a]. *)
Theorem absent_node_throws w st :
  alertLevel [Sample.latest_no_node; Sample.release_1_2_0] st = (Throw TypeError, st) /\
  saveToFile w [Sample.latest_no_node; Sample.release_1_2_0] st = (Throw TypeError, st) /\
  version_row Sample.latest_no_node = Str.NL +:+ "| Latest | 2.1.0 | n/a | 71.0 |".
Proof.
  split; [|split].
  - by rewrite alertLevel_verdict.
  - unfold saveToFile, bind. by rewrite alertLevel_verdict.
  - reflexivity.
Qed.

(** The failing lineage is one the pipeline builds itself: when the node
    submodule lookup has no [sha], [getVersions] returns it and [start]
    ends in the [TypeError] with no file written. *)
Lemma absent_node_reached :
  fst (getVersions Sample.no_node 3 initial) =
    Ret [Sample.latest_no_node; Sample.release_1_2_0] /\
  fst (start Sample.no_node 3 initial) = Throw TypeError /\
  files (snd (start Sample.no_node 3 initial)) = ∅.
Proof. by vm_compute. Qed.

(** In general: the first pair guarded in, and a JS-runtime or
    browser-engine version missing in it. *)
Lemma absent_field_throws a b rest st :
  both_electron a b = true ->
  present (node a) && present (node b) && present (chrome a) && present (chrome b) = false ->
  alertLevel (a :: b :: rest) st = (Throw TypeError, st).
Proof.
  intros Hg Hp. rewrite alertLevel_verdict. unfold verdict. by rewrite Hg, Hp.
Qed.

(** The row of an entry without a JS-runtime version. *)
Lemma version_row_absent v :
  node v = None ->
  version_row v =
  Str.NL +:+ "| " +:+ vscode v +:+ " | " +:+ Str.or_else (electron v) "n/a" +:+
  " | " +:+ "n/a" +:+ " | " +:+ Str.or_else (chrome v) "n/a" +:+ " |".
Proof. intros H. unfold version_row. by rewrite H. Qed.

(** ** C10: the guard of the first comparison *)

(** C10.  When one of the first two entries has no shell-runtime version,
    the alert level is never Warning, whatever the other fields; and with a
    third entry, whenever the first comparison has not set Warning (it was
    guarded out, or it ran and found no change), the result is that of the
    comparison of entries 1 and 2, which has no guard of its own: it
    throws on an absent field and otherwise tells Notice from None. *)
Theorem warning_needs_both_electron a b rest st :
  (both_electron a b = false ->
   fst (alertLevel (a :: b :: rest) st) <> Ret 2 /\
   alertLevel (a :: b :: rest) st =
     (match rest with
      | c :: _ => notice_outcome b c
      | [] => Ret 0
      end, st)) /\
  (forall c rest',
     rest = c :: rest' ->
     both_electron a b = false \/
     (present (node a) && present (node b) &&
      present (chrome a) && present (chrome b) = true /\
      shows_change a b = false) ->
     alertLevel (a :: b :: rest) st = (notice_outcome b c, st)).
Proof.
  split.
  - intros Hg. rewrite alertLevel_verdict. unfold verdict, notice_outcome.
    rewrite Hg. cbn [andb fst].
    destruct rest as [|c rest]; [done|].
    split; [|done]. destruct (resolved b && resolved c); [|done].
    by destruct (shows_change b c).
  - intros c rest' -> H. rewrite alertLevel_verdict. unfold verdict, notice_outcome.
    destruct H as [-> | [-> ->]]; [done|].
    by rewrite !andb_false_r.
Qed.

Lemma warning_needs_both_electron_witness :
  (fst (alertLevel Sample.headless initial) <> Ret 2 /\
   alertLevel Sample.headless initial = (Ret 0, initial)) /\
  alertLevel (Sample.headless ++ [Sample.release_1_2_0]) initial =
    (notice_outcome
       {| vscode := "1.30.0"; electron := Some "1.0.0"; node := Some "8.0.0";
          chrome := Some "69.0" |}
       Sample.release_1_2_0, initial).
Proof.
  split.
  - apply (warning_needs_both_electron _ _ [] initial). reflexivity.
  - apply (warning_needs_both_electron _ _ [Sample.release_1_2_0] initial)
      with (rest' := []); [reflexivity|]. left. reflexivity.
Defined.

(** ** C7: the filter on tag names *)

(** C7.  The filter of [fetchVSCodeVersion] accepts a tag name exactly
    when it is three non-empty runs of decimal digits separated by dots,
    followed by nothing or by [-insiders]; the tags kept are the accepted
    names in the order of the pages; [v1.0], [1.0] and [abc] are
    rejected. *)
Theorem tag_filter (s : string) :
  (Regex.test Pat.tag s = true <-> SemVerTag s) /\
  (forall tags res,
     push_tags tags res =
     tags ++ List.filter (Regex.test Pat.tag) (map name (concat res))) /\
  Regex.test Pat.tag "v1.0" = false /\
  Regex.test Pat.tag "1.0" = false /\
  Regex.test Pat.tag "abc" = false.
Proof.
  split; [split; [apply tag_rejects|apply tag_accepts]|].
  split; [intros; apply push_tags_filter|]. by vm_compute.
Qed.

(** ** C8: following the pages *)

(** C8.  Along a finite chain of pages, each but the last carrying a
    [next] link to the one after it, [githubRequest] with enough fuel
    returns the bodies in the order requested, the page fetched first at
    the head, and issues exactly the requests of the chain: it stops at the
    page without a [next] link.  Conversely a result only ever comes from
    such a chain, so the recursion ends at a page without a [next] link and
    nowhere else. *)
Theorem githubRequest_pages w uri fuel st :
  (forall bodies uris,
     Chain w uri bodies uris ->
     length uris <= fuel ->
     githubRequest w fuel uri st = (Ret bodies, issued uris st)) /\
  (forall bodies st',
     githubRequest w fuel uri st = (Ret bodies, st') ->
     exists uris,
       Chain w uri bodies uris /\ length uris <= fuel /\ st' = issued uris st).
Proof.
  split.
  - intros bodies uris Hc Hf. by apply githubRequest_chain.
  - intros bodies st' H. by apply githubRequest_ret.
Qed.

Lemma three_pages_chain :
  Chain Sample.paged Sample.first_uri
    [ page_body Sample.page1; page_body Sample.page2; page_body Sample.page3 ]
    [ Sample.first_uri; "https://api.github.com/p2"; "https://api.github.com/p3" ].
Proof.
  apply chain_next with (next := "https://api.github.com/p2"); [reflexivity..|].
  apply chain_next with (next := "https://api.github.com/p3"); [reflexivity..|].
  apply chain_last; reflexivity.
Defined.

Lemma githubRequest_pages_witness :
  githubRequest Sample.paged 3 Sample.first_uri initial =
  (Ret [ [ {| name := "1.3.0" |}; {| name := "v1" |} ];
         [ {| name := "1.2.0" |} ];
         [ {| name := "1.1.0-insiders" |} ] ],
   issued [ Sample.first_uri; "https://api.github.com/p2"; "https://api.github.com/p3" ]
          initial).
Proof.
  apply (proj1 (githubRequest_pages Sample.paged Sample.first_uri 3 initial)
           _ _ three_pages_chain).
  simpl. lia.
Defined.

(** ** C6: nothing new to resolve *)

(** C6.  When every candidate that [fetchVSCodeVersion] returns is the
    [vscode] name of a cached entry, [getVersions] returns the cached
    lineage as it is and issues no request beyond those for the tags. *)
Theorem getVersions_idempotent w fuel st tags st1 :
  fetchVSCodeVersion w fuel st = (Ret tags, st1) ->
  (forall t, In t tags -> In t (map vscode (VERSION w))) ->
  getVersions w fuel st = (Ret (VERSION w), st1).
Proof.
  intros Hfetch Hall. unfold getVersions, bind at 1. rewrite Hfetch.
  unfold bind. rewrite cached_names. simpl.
  by rewrite versions_loop_cached.
Qed.

Lemma getVersions_idempotent_witness :
  getVersions Sample.all_cached 3 initial =
  (Ret (VERSION Sample.all_cached),
   issued [ Sample.first_uri; "https://api.github.com/p2"; "https://api.github.com/p3" ]
          initial).
Proof.
  apply (getVersions_idempotent Sample.all_cached 3 initial
           ["master"; "1.3.0"; "1.2.0"; "1.1.0-insiders"]).
  - by vm_compute.
  - intros t Ht. simpl in Ht |- *. tauto.
Defined.

(** The same for the entry point of [index.ts]. *)
Lemma IndexTs_getVersions_idempotent w fuel st tags st1 :
  IndexTs.fetchVSCodeVersion w fuel st = (Ret tags, st1) ->
  (forall t, In t tags -> In t (map vscode (VERSION w))) ->
  IndexTs.getVersions w fuel st = (Ret (VERSION w), st1).
Proof.
  intros Hfetch Hall. unfold IndexTs.getVersions, bind at 1. rewrite Hfetch.
  unfold bind. rewrite cached_names. simpl.
  by rewrite IndexTs_versions_loop_cached.
Qed.

(** ** C5: the snapshot *)

(** C5.  For a lineage of N entries, N at least 1, on which the
    classifier completes, and with the issue search answered, [saveToFile]
    returns and [version.json] then holds the N-1 entries behind the head,
    in their order. *)
Theorem saveToFile_snapshot w rest v st issues :
  completes (v :: rest) = true ->
  get_issues w issue_uri = Some issues ->
  exists st',
    saveToFile w (v :: rest) st = (Ret tt, st') /\
    files st' !! "version.json" = Some (Json rest) /\
    length rest = length (v :: rest) - 1.
Proof.
  intros Hc Hi. unfold saveToFile, bind.
  rewrite alertLevel_verdict, (completes_verdict _ Hc).
  cbn [tweet_append modify]. unfold getIssues, bind.
  rewrite (request_ok _ _ _ _ Hi). cbn [tweet_append modify writeFileSync shift].
  eexists. split; [reflexivity|]. split.
  - cbn. by rewrite lookup_insert_eq.
  - simpl. lia.
Qed.

Lemma saveToFile_snapshot_witness :
  exists st',
    saveToFile Sample.scenario [Sample.latest; Sample.release_1_2_0] initial = (Ret tt, st') /\
    files st' !! "version.json" = Some (Json [Sample.release_1_2_0]) /\
    length [Sample.release_1_2_0] = length [Sample.latest; Sample.release_1_2_0] - 1.
Proof.
  apply (saveToFile_snapshot Sample.scenario [Sample.release_1_2_0] Sample.latest
           initial {| items := [] |}); reflexivity.
Defined.

(** ** C4: a release without a shell-runtime version *)

(** C4, the failing input.  Here neither the manifest nor the build
    configuration names a version: [getElectron] returns [undefined] after
    its two requests, and the turn of the loop goes on to request the
    browser-engine header, the submodule and the node header, with
    [undefined] in the URIs. *)
Lemma resolve_skips_counterexample :
  getElectron Sample.no_electron "1.0.0" (Sample.fetching "1.0.0" initial) =
    (Ret None,
     issued [ "https://raw.githubusercontent.com/Microsoft/vscode/1.0.0/package.json?client_id=undefined&client_secret=undefined";
              "https://raw.githubusercontent.com/Microsoft/vscode/1.0.0/.yarnrc?client_id=undefined&client_secret=undefined" ]
            (Sample.fetching "1.0.0" initial)) /\
  resolve Sample.no_electron "1.0.0" initial =
    (Ret {| vscode := "1.0.0"; electron := None; node := Some "10.1.0";
            chrome := Some "71.0" |},
     issued [ "https://raw.githubusercontent.com/Microsoft/vscode/1.0.0/package.json?client_id=undefined&client_secret=undefined";
              "https://raw.githubusercontent.com/Microsoft/vscode/1.0.0/.yarnrc?client_id=undefined&client_secret=undefined";
              "https://raw.githubusercontent.com/electron/electron/vundefined/atom/common/chrome_version.h?client_id=undefined&client_secret=undefined";
              "https://api.github.com/repos/electron/electron/contents/vendor/node?ref=vundefined&client_id=undefined&client_secret=undefined";
              "https://raw.githubusercontent.com/electron/node/abc/src/node_version.h?client_id=undefined&client_secret=undefined" ]
            (Sample.fetching "1.0.0" initial)).
Proof. by vm_compute. Qed.

(** C4, what the code does instead of skipping.  When both extractions
    yield no shell-runtime version, the turn of the loop still performs
    steps 3 and 4: the very next request is the one for the browser-engine
    header, built from the absent version; if it is answered, the one for
    the node submodule follows; and an entry that comes out of the turn has
    its shell-runtime field absent.  Nothing in the source guards the two
    calls, though the field is typed as possibly absent, rendered as [n/a]
    and guarded in the classifier, and [getNodeVersion] guards its own
    missing reference. *)
Theorem resolve_absent_electron w version st e st1 :
  getElectron w version
    (with_console (fun c => c ++ ["Fetching " +:+ version +:+ "..."]) st) = (Ret e, st1) ->
  Str.truthy_opt e = false ->
  exists more,
    requests (snd (resolve w version st)) = requests st1 ++ chrome_uri w e :: more /\
    (is_Some (get_text w (chrome_uri w e)) -> exists more', more = node_uri w e :: more') /\
    (forall v, fst (resolve w version st) = Ret v -> electron v = e).
Proof.
  intros He _. rewrite (resolve_after_electron _ _ _ _ _ He). unfold bind at 1 3.
  destruct (get_text w (chrome_uri w e)) as [h|] eqn:Hh.
  - destruct (getChromeVersion_answered w e st1 h Hh) as [c ->].
    destruct (getNodeVersion_requests w e (issued [chrome_uri w e] st1)) as [more Hmore].
    unfold issued, with_requests in Hmore. cbn [requests] in Hmore.
    unfold bind.
    destruct (getNodeVersion w e _) as [[n|err|] st2]; cbn [fst snd ret electron] in Hmore |- *;
      (exists (node_uri w e :: more); split;
       [by rewrite Hmore, <- app_assoc | split; [by eexists | intros v Hv; by simplify_eq]]).
  - rewrite (getChromeVersion_failed _ _ _ Hh). exists []. split; [done|].
    split; [by intros [? ?]|done].
Qed.

Lemma resolve_absent_electron_witness :
  exists more,
    requests (snd (resolve Sample.no_electron "1.0.0" initial)) =
      requests (snd (getElectron Sample.no_electron "1.0.0"
                       (Sample.fetching "1.0.0" initial))) ++
      chrome_uri Sample.no_electron None :: more /\
    (is_Some (get_text Sample.no_electron (chrome_uri Sample.no_electron None)) ->
     exists more', more = node_uri Sample.no_electron None :: more') /\
    (forall v, fst (resolve Sample.no_electron "1.0.0" initial) = Ret v ->
               electron v = None).
Proof.
  apply (resolve_absent_electron Sample.no_electron "1.0.0" initial None
           (snd (getElectron Sample.no_electron "1.0.0"
                   (Sample.fetching "1.0.0" initial)))).
  - by vm_compute.
  - reflexivity.
Defined.

(** ** C9: no notification endpoint *)

(** C9.  Without a [TWEET_ENDPOINT], a run whose earlier statements
    succeed ends normally, having logged that no endpoint was found;
    nothing is posted; and whatever endpoint is configured instead, the
    statements before [postTweet] behave the same and the run leaves the
    same files and has made the same requests.  The outcome is the same
    too, but for an endpoint that [https.request] refuses: there the
    run that would have returned ends in a [TypeError], after the files
    are written. *)
Theorem no_endpoint_skips_post w fuel st :
  Str.truthy_opt (TWEET_ENDPOINT (env w)) = false ->
  (forall s1, before_post w fuel st = (Ret tt, s1) ->
     start w fuel st =
     (Ret tt, with_console
                (fun c => c ++ ["No tweet endpoint found."; "Finished!"]) s1)) /\
  posts (snd (start w fuel st)) = posts st /\
  (forall ep,
     before_post (with_endpoint ep w) fuel st = before_post w fuel st /\
     files (snd (start (with_endpoint ep w) fuel st)) = files (snd (start w fuel st)) /\
     requests (snd (start (with_endpoint ep w) fuel st)) =
       requests (snd (start w fuel st)) /\
     (unsendable ep = false \/ fst (start w fuel st) <> Ret tt ->
      fst (start (with_endpoint ep w) fuel st) = fst (start w fuel st)) /\
     (unsendable ep = true -> fst (start w fuel st) = Ret tt ->
      fst (start (with_endpoint ep w) fuel st) = Throw TypeError)).
Proof.
  intros Hep. split; [|split].
  - intros s1 H1. rewrite start_before_post, H1. unfold bind.
    rewrite (postTweet_absent _ _ Hep).
    unfold console_log, modify, with_console. cbn. by rewrite <- app_assoc.
  - rewrite start_before_post. pose proof (quiet_before_post w fuel st) as Hq.
    destruct (before_post w fuel st) as [[[]|e|] s1]; cbn in Hq |- *; try done.
    unfold bind. by rewrite (postTweet_absent _ _ Hep).
  - intros ep. split; [apply before_post_endpoint|].
    rewrite !start_before_post, before_post_endpoint.
    destruct (before_post w fuel st) as [[[]|e|] s1]; [|by repeat split..].
    unfold bind. rewrite (postTweet_absent _ _ Hep).
    pose proof (postTweet_cases (with_endpoint ep w) s1) as H.
    cbn [with_endpoint env TWEET_ENDPOINT] in H.
    destruct (unsendable ep).
    + rewrite H. cbn. repeat split; try done. by intros [?|?].
    + destruct H as (s2 & -> & Hf & Hr). cbn. rewrite Hf, Hr. by repeat split.
Qed.

Lemma no_endpoint_skips_post_witness :
  posts (snd (start Sample.scenario 3 initial)) = posts initial /\
  fst (start Sample.scenario 3 initial) = Ret tt /\
  fst (start (with_endpoint (Some "https://tweets.example.org:443/api/post tweet")
                Sample.scenario) 3 initial) = Throw TypeError.
Proof.
  pose proof (no_endpoint_skips_post Sample.scenario 3 initial eq_refl)
    as (Hrun & Hposts & Hep).
  split; [exact Hposts|].
  assert (fst (start Sample.scenario 3 initial) = Ret tt) as Hret.
  { destruct (before_post Sample.scenario 3 initial) as [o s1] eqn:Hb.
    assert (o = Ret tt) as -> by (vm_compute in Hb; congruence).
    by rewrite (Hrun s1 eq_refl). }
  split; [exact Hret|].
  destruct (Hep (Some "https://tweets.example.org:443/api/post tweet"))
    as (_ & _ & _ & _ & Hthrow).
  apply Hthrow; [by vm_compute|exact Hret].
Defined.

(** * Further properties *)

(** ** What a computation leaves alone *)

Lemma keeps_ret {A B} (f : State -> B) (a : A) : keeps f (ret a).
Proof. by intros st. Qed.

Lemma keeps_throw {A B} (f : State -> B) e : keeps f (@throw A e).
Proof. by intros st. Qed.

Lemma keeps_bind {A B C} (f : State -> C) (m : M A) (k : A -> M B) :
  keeps f m -> (forall a, keeps f (k a)) -> keeps f (bind m k).
Proof.
  intros Hm Hk st. unfold bind. specialize (Hm st).
  destruct (m st) as [[a|e|] st']; simpl in *; [|done..].
  by rewrite Hk.
Qed.

Lemma keeps_request {T B} (f : State -> B) (get : string -> option T) uri :
  (forall g st, f (with_requests g st) = f st) -> keeps f (request get uri).
Proof. intros Hf st. unfold request. destruct (get uri); apply Hf. Qed.

Lemma keeps_issue {B} (f : State -> B) uri :
  (forall g st, f (with_requests g st) = f st) ->
  keeps f (modify (with_requests (fun r => r ++ [uri]))).
Proof. intros Hf st. apply Hf. Qed.

Lemma keeps_console_log {B} (f : State -> B) s :
  (forall g st, f (with_console g st) = f st) -> keeps f (console_log s).
Proof. intros Hf st. apply Hf. Qed.

Lemma keeps_transforming {A B} (f : State -> B) uri (m : M A) :
  keeps f m -> keeps f (transforming uri m).
Proof.
  intros Hm st. unfold transforming. specialize (Hm st).
  by destruct (m st) as [[a|e|] st'].
Qed.

Lemma keeps_files_tweet_append s : keeps files (tweet_append s).
Proof. by intros st. Qed.

Create HintDb keeps.

#[local] Hint Resolve keeps_ret keeps_throw keeps_request keeps_issue keeps_console_log
  keeps_files_tweet_append : keeps.

Ltac keeps_step :=
  match goal with
  | |- keeps _ (bind _ _) => apply keeps_bind; [|intros ?]
  | |- keeps _ (transforming _ _) => apply keeps_transforming
  | |- keeps _ (match ?x with _ => _ end) => destruct x
  | |- keeps _ _ => solve [auto with keeps]
  end.

Section Keeps.

Context {B : Type} (f : State -> B).
Hypothesis requests_apart : forall g st, f (with_requests g st) = f st.
Hypothesis console_apart : forall g st, f (with_console g st) = f st.

Lemma keeps_githubRequest w fuel : forall uri, keeps f (githubRequest w fuel uri).
Proof using requests_apart.
  induction fuel as [|fuel IH]; intros uri; cbn [githubRequest]; [by intros st|].
  repeat keeps_step.
Qed.

Lemma keeps_getElectron w v : keeps f (getElectron w v).
Proof using requests_apart.
  unfold getElectron, read_electronVersion, yarnc_match. repeat keeps_step.
Qed.

Lemma keeps_getChromeVersion w e : keeps f (getChromeVersion w e).
Proof using requests_apart. unfold getChromeVersion. repeat keeps_step. Qed.

Lemma keeps_getNodeVersion w e : keeps f (getNodeVersion w e).
Proof using requests_apart. unfold getNodeVersion. repeat keeps_step. Qed.

Lemma keeps_getVersions w fuel : keeps f (getVersions w fuel).
Proof using requests_apart console_apart.
  assert (Hres : forall v, keeps f (resolve w v)).
  { intros v. unfold resolve.
    pose proof (keeps_getElectron w v). pose proof (keeps_getChromeVersion w).
    pose proof (keeps_getNodeVersion w). repeat keeps_step. }
  assert (Hloop : forall cached vs acc, keeps f (versions_loop w vs cached acc)).
  { intros cached vs. induction vs as [|v vs IH]; intros acc; simpl;
      [auto with keeps|]. pose proof (Hres v). repeat keeps_step. }
  unfold getVersions, fetchVSCodeVersion.
  pose proof (keeps_githubRequest w fuel). repeat keeps_step.
Qed.


End Keeps.

Lemma keeps_files_getVersions w fuel : keeps files (getVersions w fuel).
Proof. by apply keeps_getVersions. Qed.

Lemma keeps_tweet_getVersions w fuel : keeps tweet (getVersions w fuel).
Proof. by apply keeps_getVersions. Qed.


Lemma keeps_files_postTweet w : keeps files (postTweet w).
Proof. intros st. apply postTweet_files. Qed.

(** ** Who can throw what *)

Lemma network_only_ret {A} (a : A) : network_only (ret a).
Proof. by intros st e st'. Qed.


Lemma network_only_request {T} (get : string -> option T) uri :
  network_only (request get uri).
Proof.
  intros st e st'. unfold request. destruct (get uri); [done|].
  by intros [= <- _].
Qed.

Lemma network_only_modify f : network_only (modify f).
Proof. by intros st e st'. Qed.

Lemma network_only_reject {A} uri : network_only (@throw A (RequestError uri)).
Proof. by intros st e st' [= <- _]. Qed.

Lemma network_only_transforming {A} uri (m : M A) : network_only (transforming uri m).
Proof.
  intros st e st'. unfold transforming.
  destruct (m st) as [[a|e'|] st1]; [done| |done]. by intros [= <- _].
Qed.

Create HintDb network.

#[local] Hint Resolve network_only_ret network_only_request network_only_modify
  network_only_reject network_only_transforming : network.








(** ** Pages that fail, pages that never end *)

Lemma githubRequest_followed w uri uris :
  Followed w uri uris ->
  forall fuel st, length uris <= fuel ->
    githubRequest w fuel uri st = (settle w uris, issued uris st).
Proof.
  induction 1 as [uri Hnext | uri next uris Hnext _ IH];
    intros [|fuel] st Hfuel; simpl in Hfuel; try lia.
  - rewrite githubRequest_S. unfold seen_link in Hnext. cbn [settle].
    destruct (get_tags w uri) as [page|]; by rewrite Hnext.
  - rewrite githubRequest_S. unfold seen_link in Hnext. cbn [settle].
    destruct (get_tags w uri) as [page|]; rewrite Hnext, IH by lia;
      rewrite issued_issued; by destruct (settle w uris).
Qed.

Lemma settle_answered w post :
  Forall (fun u => is_Some (get_tags w u)) post -> exists res, settle w post = Ret res.
Proof.
  induction 1 as [|u post [page Hu] _ [res IH]]; [by exists []|].
  cbn [settle]. rewrite IH, Hu. by eexists.
Qed.

Lemma settle_surfaced w pre bad post :
  get_tags w bad = None ->
  Forall (fun u => is_Some (get_tags w u)) post ->
  settle w (pre ++ bad :: post) = Throw (surfaced pre bad).
Proof.
  intros Hbad Hpost. induction pre as [|u pre IH].
  - cbn [app settle]. destruct (settle_answered w post Hpost) as [res ->].
    by rewrite Hbad.
  - cbn [app settle]. rewrite IH. done.
Qed.

(** X1.  When a page of tags is not answered, be it the first or one
    reached through [next] links, [githubRequest] goes on through the
    pages that the headers name, the one of the refused page included,
    and then throws: if the pages behind the bad one are all answered,
    what comes out is the rejection of the bad page wrapped once for
    every request made before it, so a [TransformError] of the first
    request unless the first page is the bad one.  The bodies fetched
    are dropped, and [start] ends in the same exception having done
    nothing but the requests: nothing is logged, tweeted or written. *)
Theorem broken_page_aborts w pre bad post fuel st :
  Followed w (tags_uri w) (pre ++ bad :: post) ->
  get_tags w bad = None ->
  Forall (fun u => is_Some (get_tags w u)) post ->
  length (pre ++ bad :: post) <= fuel ->
  githubRequest w fuel (tags_uri w) st =
    (Throw (surfaced pre bad), issued (pre ++ bad :: post) st) /\
  start w fuel st = (Throw (surfaced pre bad), issued (pre ++ bad :: post) st).
Proof.
  intros Hf Hbad Hpost Hfuel.
  pose proof (githubRequest_followed _ _ _ Hf fuel st Hfuel) as H.
  rewrite (settle_surfaced _ _ _ _ Hbad Hpost) in H. split; [done|].
  unfold start, getVersions, fetchVSCodeVersion, bind. by rewrite H.
Qed.

Lemma broken_page_aborts_witness :
  githubRequest Sample2.refusing 5 (tags_uri Sample2.refusing) initial =
    (Throw (TransformError Sample.first_uri (RequestError "https://api.github.com/p2")),
     issued [Sample.first_uri; "https://api.github.com/p2"; "https://api.github.com/p3"]
       initial) /\
  start Sample2.refusing 5 initial =
    (Throw (TransformError Sample.first_uri (RequestError "https://api.github.com/p2")),
     issued [Sample.first_uri; "https://api.github.com/p2"; "https://api.github.com/p3"]
       initial).
Proof.
  apply (broken_page_aborts Sample2.refusing [Sample.first_uri]
           "https://api.github.com/p2" ["https://api.github.com/p3"] 5 initial).
  - apply followed_next with (next := "https://api.github.com/p2"); [by vm_compute|].
    apply followed_next with (next := "https://api.github.com/p3"); [by vm_compute|].
    apply followed_last. by vm_compute.
  - reflexivity.
  - repeat constructor. by eexists.
  - simpl. lia.
Defined.

(** X2.  Where every page reachable from [uri] is answered and names a
    next page, as with a page that names itself, no amount of fuel makes
    [githubRequest] return or throw: each unit of fuel is spent on one more
    request. *)
Theorem endless_pages_never_return w (reach : string -> Prop) fuel uri st :
  (forall u, reach u ->
     exists page next,
       get_tags w u = Some page /\ next_link (link page) = Some next /\ reach next) ->
  reach uri ->
  fst (githubRequest w fuel uri st) = OutOfFuel /\
  length (requests (snd (githubRequest w fuel uri st))) = length (requests st) + fuel.
Proof.
  intros Hstep. revert uri st.
  induction fuel as [|fuel IH]; intros uri st Hu; [simpl; split; [done|lia]|].
  destruct (Hstep uri Hu) as (page & next & Hget & Hnext & Hn).
  rewrite githubRequest_S, Hget, Hnext.
  destruct (IH next (issued [uri] st) Hn) as [Ho Hl].
  destruct (githubRequest w fuel next (issued [uri] st)) as [[r|e|] st1];
    simpl in Ho, Hl |- *; try done.
  split; [done|]. rewrite Hl. unfold issued, with_requests. simpl.
  rewrite length_app. simpl. lia.
Qed.

Lemma endless_pages_never_return_witness :
  fst (githubRequest Sample2.looping 7 "https://api.github.com/loop" initial) = OutOfFuel /\
  length (requests (snd (githubRequest Sample2.looping 7
                           "https://api.github.com/loop" initial))) =
    length (requests initial) + 7.
Proof.
  apply (endless_pages_never_return Sample2.looping
           (fun u => u = "https://api.github.com/loop")).
  - intros u ->. exists Sample2.loop_page, "https://api.github.com/loop".
    split; [reflexivity|]. split; [|reflexivity]. by vm_compute.
  - reflexivity.
Defined.

(** ** The header reader on well-formed headers *)

Lemma next_link_entries_witness :
  next_link (Some Sample.header2) = Some "https://api.github.com/p3".
Proof.
  rewrite (proj2 sample_headers).
  apply (next_link_entries
           [ {| e_pad := ""; e_uri := "https://api.github.com/p1"; e_rel := "prev" |};
             {| e_pad := " "; e_uri := "https://api.github.com/p3"; e_rel := "next" |} ]).
  reflexivity.
Defined.

(** ** The scope of the alert level *)

(** X4.  The alert level is read off the first three entries only: what
    lies behind them changes neither the level nor whether a split throws.
    Computing it touches nothing in the state, and it comes to 0, 1 or 2, or
    to a [TypeError]: the [default] branch of the [switch] is never
    reached. *)
Theorem alertLevel_scope (l : list VSCode) st :
  alertLevel l st = alertLevel (take 3 l) st /\
  snd (alertLevel l st) = st /\
  (fst (alertLevel l st) = Ret 0 \/ fst (alertLevel l st) = Ret 1 \/
   fst (alertLevel l st) = Ret 2 \/ fst (alertLevel l st) = Throw TypeError).
Proof.
  rewrite !alertLevel_verdict. split; [|split; [done|]].
  - by destruct l as [|a [|b [|c rest]]].
  - cbn [fst]. destruct l as [|a [|b rest]]; [by left..|]. unfold verdict.
    destruct (both_electron a b && negb _); [by do 3 right|].
    destruct (both_electron a b && shows_change a b); [by right; right; left|].
    destruct rest as [|c rest]; [by left|].
    destruct (resolved b && resolved c); [|by do 3 right].
    destruct (shows_change b c); [by right; left|by left].
Qed.

(** ** The lineage that [getVersions] builds *)

Lemma resolve_recorded w v st tag st' :
  resolve w v st = (Ret tag, st') -> vscode tag = recorded v.
Proof.
  unfold resolve, bind. cbn [console_log modify].
  destruct (getElectron w v _) as [[e|err|] st1]; [|done..].
  destruct (getChromeVersion w e st1) as [[c|err|] st2]; [|done..].
  destruct (getNodeVersion w e st2) as [[n|err|] st3]; [|done..].
  by intros [= <- _].
Qed.

Lemma indexOf_elem_of names v :
  (0 <=? indexOf names v)%Z = bool_decide (v ∈ names).
Proof.
  destruct (0 <=? indexOf names v)%Z eqn:H.
  - symmetry. apply bool_decide_eq_true. by apply list_elem_of_In, indexOf_In.
  - symmetry. apply bool_decide_eq_false. intros Hin.
    apply list_elem_of_In, indexOf_In in Hin. congruence.
Qed.

Lemma versions_loop_shape w cached vs : forall acc st l st',
  versions_loop w vs cached acc st = (Ret l, st') ->
  exists fresh,
    l = acc ++ fresh /\
    map vscode fresh =
    map recorded (List.filter (fun v => negb (bool_decide (v ∈ cached))) vs).
Proof.
  induction vs as [|v vs IH]; intros acc st l st' H; simpl in H.
  - injection H as <- <-. exists []. by rewrite app_nil_r.
  - simpl. rewrite <- indexOf_elem_of.
    destruct (0 <=? indexOf cached v)%Z; simpl; [by eapply IH|].
    unfold bind in H. destruct (resolve w v st) as [[tag|e|] st1] eqn:Hr; [|done..].
    apply IH in H as (fresh & -> & Hn). exists (tag :: fresh).
    split; [by rewrite <- app_assoc|]. simpl.
    by rewrite (resolve_recorded _ _ _ _ _ Hr), Hn.
Qed.

Lemma getVersions_ret w fuel st l st' :
  getVersions w fuel st = (Ret l, st') ->
  exists candidates st1 fresh,
    fetchVSCodeVersion w fuel st = (Ret candidates, st1) /\
    l = fresh ++ VERSION w /\
    map vscode fresh = map recorded (uncached (VERSION w) candidates).
Proof.
  unfold getVersions, bind at 1.
  destruct (fetchVSCodeVersion w fuel st) as [[candidates|e|] st1]; [|done..].
  unfold bind. rewrite cached_names. simpl.
  destruct (versions_loop w candidates _ [] st1) as [[fresh|e|] st2] eqn:Hl; [|done..].
  intros [= <- <-]. apply versions_loop_shape in Hl as (fresh' & -> & Hn).
  exists candidates, st1, fresh'. done.
Qed.

(** X5.  What [getVersions] returns is a run of fresh entries followed by
    the cached lineage, whole and in its order.  The fresh entries are, in
    the order of the candidates, one for each candidate that is not the
    name of a cached entry, recorded under the candidate's name, [Latest]
    for [master].  Building the lineage writes no file and adds nothing to
    the tweet. *)
Theorem getVersions_shape w fuel st l st' :
  getVersions w fuel st = (Ret l, st') ->
  (exists candidates st1 fresh,
     fetchVSCodeVersion w fuel st = (Ret candidates, st1) /\
     l = fresh ++ VERSION w /\
     map vscode fresh = map recorded (uncached (VERSION w) candidates)) /\
  files st' = files st /\ tweet st' = tweet st.
Proof.
  intros H. split; [by eapply getVersions_ret|].
  pose proof (keeps_files_getVersions w fuel st) as Hf.
  pose proof (keeps_tweet_getVersions w fuel st) as Ht.
  rewrite H in Hf, Ht. done.
Qed.

Lemma getVersions_shape_witness :
  (exists candidates st1 fresh,
     fetchVSCodeVersion Sample.paged 3 initial = (Ret candidates, st1) /\
     [ Sample.latest;
       {| vscode := "1.3.0"; electron := Some "2.1.0"; node := Some "10.1.0";
          chrome := Some "71.0" |};
       {| vscode := "1.1.0-insiders"; electron := Some "2.1.0"; node := Some "10.1.0";
          chrome := Some "71.0" |};
       Sample.release_1_2_0 ] = fresh ++ VERSION Sample.paged /\
     map vscode fresh = map recorded (uncached (VERSION Sample.paged) candidates)) /\
  files (snd (getVersions Sample.paged 3 initial)) = files initial /\
  tweet (snd (getVersions Sample.paged 3 initial)) = tweet initial.
Proof.
  apply (getVersions_shape Sample.paged 3 initial).
  by vm_compute.
Defined.

(** ** The candidates *)

Lemma master_not_tag : ~ SemVerTag "master".
Proof. intros H. apply tag_accepts in H. by vm_compute in H. Qed.

Lemma Latest_not_tag : ~ SemVerTag "Latest".
Proof. intros H. apply tag_accepts in H. by vm_compute in H. Qed.

Lemma fetchVSCodeVersion_ret w fuel st tags st' :
  fetchVSCodeVersion w fuel st = (Ret tags, st') ->
  exists rest, tags = "master" :: rest /\ Forall SemVerTag rest.
Proof.
  unfold fetchVSCodeVersion, bind.
  destruct (githubRequest w fuel (tags_uri w) st) as [[res|e|] st1]; [|done..].
  intros [= <- _]. rewrite push_tags_filter. eexists. split; [reflexivity|].
  apply Forall_forall. intros t Ht.
  apply list_elem_of_In, filter_In in Ht as [_ Ht]. by apply tag_rejects.
Qed.

(** X6.  The candidates that [fetchVSCodeVersion] returns are [master]
    followed by tag names that are all well-formed versions; [master] and
    [Latest] occur nowhere behind the head. *)
Theorem candidates_master_then_versions w fuel st tags st' :
  fetchVSCodeVersion w fuel st = (Ret tags, st') ->
  exists rest,
    tags = "master" :: rest /\ Forall SemVerTag rest /\
    ("master" ∉ rest) /\ ("Latest" ∉ rest).
Proof.
  intros H. apply fetchVSCodeVersion_ret in H as (rest & -> & Hall).
  exists rest. split; [done|]. split; [done|].
  rewrite Forall_forall in Hall.
  split; intros Hin; apply Hall in Hin;
    [by apply master_not_tag|by apply Latest_not_tag].
Qed.

Lemma candidates_master_then_versions_witness :
  exists rest,
    ["master"; "1.3.0"; "1.2.0"; "1.1.0-insiders"] = "master" :: rest /\
    Forall SemVerTag rest /\ ("master" ∉ rest) /\ ("Latest" ∉ rest).
Proof.
  apply (candidates_master_then_versions Sample.paged 3 initial _
           (snd (fetchVSCodeVersion Sample.paged 3 initial))).
  by vm_compute.
Defined.

(** ** The snapshot from one run to the next *)

(** X7.  As long as no cached entry is named [master], a run that gets
    as far as writing the snapshot resolves [master] afresh, puts its entry,
    named [Latest], at the head of the lineage, and leaves exactly that
    entry out of [version.json]: the snapshot is the other fresh entries
    followed by the whole previous cache. *)
Theorem snapshot_rolls w fuel st l st1 st2 :
  getVersions w fuel st = (Ret l, st1) ->
  saveToFile w l st1 = (Ret tt, st2) ->
  "master" ∉ map vscode (VERSION w) ->
  exists head fresh,
    l = head :: fresh ++ VERSION w /\
    vscode head = "Latest" /\
    files st2 !! "version.json" = Some (Json (fresh ++ VERSION w)).
Proof.
  intros Hg Hs Hm. apply saveToFile_ret_snapshot in Hs.
  apply getVersions_ret in Hg as (candidates & st0 & fresh & Hf & -> & Hn).
  apply fetchVSCodeVersion_ret in Hf as (rest & -> & _).
  unfold uncached in Hn. simpl in Hn.
  rewrite bool_decide_eq_false_2 in Hn by done. simpl in Hn.
  destruct fresh as [|head fresh]; [done|]. injection Hn as Hh _.
  exists head, fresh. split; [done|]. split; [exact Hh|exact Hs].
Qed.

Lemma snapshot_rolls_witness :
  exists head fresh,
    [Sample.latest; Sample.release_1_2_0] = head :: fresh ++ VERSION Sample.scenario /\
    vscode head = "Latest" /\
    files (snd (saveToFile Sample.scenario [Sample.latest; Sample.release_1_2_0]
                  (snd (getVersions Sample.scenario 1 initial))))
      !! "version.json" = Some (Json (fresh ++ VERSION Sample.scenario)).
Proof.
  apply (snapshot_rolls Sample.scenario 1 initial _
           (snd (getVersions Sample.scenario 1 initial))).
  - by vm_compute.
  - by vm_compute.
  - eapply bool_decide_unpack. by vm_compute.
Defined.

(** ** What [saveToFile] does to the state *)

Lemma fold_rows {A} (row : A -> string) (l : list A) : forall md,
  fold_left (fun md x => md +:+ row x) l md = md +:+ rows row l.
Proof.
  induction l as [|x l IH]; intros md; simpl.
  - by rewrite app_empty_r.
  - by rewrite IH, app_assoc_str.
Qed.

Lemma saveToFile_stalls w l st :
  completes l = false -> saveToFile w l st = (Throw TypeError, st).
Proof.
  intros Hc. unfold saveToFile, bind.
  by rewrite alertLevel_verdict, (stalls_verdict _ Hc).
Qed.

Lemma saveToFile_no_issues w l st :
  completes l = true -> get_issues w issue_uri = None ->
  saveToFile w l st =
  (Throw (RequestError issue_uri),
   issued [issue_uri] (with_tweet (fun t => t +:+ snd (banner (severity l))) st)).
Proof.
  intros Hc Hi. unfold saveToFile, bind.
  rewrite alertLevel_verdict, (completes_verdict _ Hc).
  cbn [tweet_append modify]. unfold getIssues, bind.
  by rewrite (request_fail _ _ _ Hi).
Qed.

Lemma saveToFile_ok w l st r :
  completes l = true -> get_issues w issue_uri = Some r ->
  exists before after,
    saveToFile w l st =
    (Ret tt,
     {| requests := requests st ++ [issue_uri];
        console := console st;
        tweet := (tweet st +:+ snd (banner (severity l))) +:+
                 (Str.of_nat (length (items r)) +:+
                  " open issue(s) about Electron update. ");
        files := <["version.json" := Json (shift l)]>
                   (<["README.md" :=
                        Text (before +:+ table_head +:+ rows version_row l +:+ after)]>
                      (files st));
        posts := posts st |}).
Proof.
  intros Hc Hi. unfold saveToFile, bind.
  rewrite alertLevel_verdict, (completes_verdict _ Hc).
  cbn [tweet_append modify]. unfold getIssues, bind.
  rewrite (request_ok _ _ _ _ Hi). cbn [tweet_append modify writeFileSync ret].
  rewrite !fold_rows.
  exists (("# VSCode Version Watcher" +:+ Str.NL +:+ Str.NL +:+
           "Follow on Twitter [@VscodeW](https://twitter.com/VscodeW)!" +:+
           Str.NL +:+ Str.NL) +:+ fst (banner (severity l)) +:+
          "Last update: " +:+ Regex.replace_all Pat.date_noise " " (now w) +:+
          "GMT" +:+ Str.NL +:+ Str.NL).
  exists ((Str.NL +:+ Str.NL +:+ "## Open Issue About Electron Update" +:+
           Str.NL +:+ Str.NL +:+ "| Title | Creator | Create | Update |" +:+
           Str.NL +:+ "| :---:| :-----: | :----: | :----: |" +:+ Str.NL) +:+
          rows issue_row (items r)).
  unfold issued, with_requests, with_tweet, with_files.
  cbn [requests console tweet files posts].
  rewrite !app_assoc_str. reflexivity.
Qed.

(** X8.  [saveToFile] writes both files or none.  When it returns, the
    files are those it found with [README.md] and [version.json] set: the
    report has one row for every entry of the lineage, the head included
    and in order, right under the table head, and the snapshot is the
    lineage without its head.  When it does not return, because a split
    threw or the issue search was rejected, no file has changed. *)
Theorem saveToFile_writes_both_or_nothing w l st :
  (fst (saveToFile w l st) = Ret tt /\
   exists before after,
     files (snd (saveToFile w l st)) =
     <["version.json" := Json (shift l)]>
       (<["README.md" :=
            Text (before +:+ table_head +:+ rows version_row l +:+ after)]>
          (files st))) \/
  (fst (saveToFile w l st) <> Ret tt /\ files (snd (saveToFile w l st)) = files st).
Proof.
  destruct (completes l) eqn:Hc.
  - destruct (get_issues w issue_uri) as [r|] eqn:Hi.
    + destruct (saveToFile_ok w l st r Hc Hi) as (before & after & ->).
      left. split; [done|]. by exists before, after.
    + right. by rewrite (saveToFile_no_issues w l st Hc Hi).
  - right. by rewrite (saveToFile_stalls w l st Hc).
Qed.

(** ** The run as a whole *)

Lemma start_after_getVersions w fuel st :
  start w fuel st =
  match getVersions w fuel st with
  | (Ret l, st1) =>
      (saveToFile w l ;;
       tweet_append "https://github.com/Sneezry/vscode-version-watcher#vscode-version-watcher" ;;
       postTweet w ;;
       console_log "Finished!") st1
  | (Throw e, st1) => (Throw e, st1)
  | (OutOfFuel, st1) => (OutOfFuel, st1)
  end.
Proof. reflexivity. Qed.

Lemma before_post_after_getVersions w fuel st :
  before_post w fuel st =
  match getVersions w fuel st with
  | (Ret l, st1) =>
      (saveToFile w l ;;
       tweet_append "https://github.com/Sneezry/vscode-version-watcher#vscode-version-watcher")
        st1
  | (Throw e, st1) => (Throw e, st1)
  | (OutOfFuel, st1) => (OutOfFuel, st1)
  end.
Proof. reflexivity. Qed.

Lemma before_post_cases w fuel st :
  match getVersions w fuel st with
  | (Ret l, st1) =>
      if completes l then
        match get_issues w issue_uri with
        | Some r =>
            exists before after s1,
              before_post w fuel st = (Ret tt, s1) /\
              files s1 =
                <["version.json" := Json (shift l)]>
                  (<["README.md" :=
                       Text (before +:+ table_head +:+ rows version_row l +:+ after)]>
                     (files st))
        | None =>
            exists s1, before_post w fuel st = (Throw (RequestError issue_uri), s1) /\
                       files s1 = files st
        end
      else before_post w fuel st = (Throw TypeError, st1) /\ files st1 = files st
  | (Throw e, st1) => before_post w fuel st = (Throw e, st1) /\ files st1 = files st
  | (OutOfFuel, st1) => before_post w fuel st = (OutOfFuel, st1) /\ files st1 = files st
  end.
Proof.
  pose proof (keeps_files_getVersions w fuel st) as Hf.
  rewrite before_post_after_getVersions.
  destruct (getVersions w fuel st) as [[l|e|] st1] eqn:Hg; cbn [snd] in Hf; [|done..].
  destruct (completes l) eqn:Hc.
  - destruct (get_issues w issue_uri) as [r|] eqn:Hi.
    + destruct (saveToFile_ok w l st1 r Hc Hi) as (before & after & Hs).
      unfold bind. rewrite Hs. cbn [tweet_append modify].
      exists before, after. eexists. split; [reflexivity|].
      cbn [files with_tweet]. by rewrite Hf.
    + unfold bind. rewrite (saveToFile_no_issues w l st1 Hc Hi).
      eexists. split; [reflexivity|]. by cbn.
  - unfold bind. by rewrite (saveToFile_stalls w l st1 Hc).
Qed.

(** What [start] adds to the statements before [postTweet]. *)
Lemma start_after_before_post w fuel st :
  match before_post w fuel st with
  | (Ret _, s1) =>
      if unsendable (TWEET_ENDPOINT (env w))
      then start w fuel st = (Throw TypeError, s1)
      else exists s2, start w fuel st = (Ret tt, s2) /\ files s2 = files s1
  | (Throw e, s1) => start w fuel st = (Throw e, s1)
  | (OutOfFuel, s1) => start w fuel st = (OutOfFuel, s1)
  end.
Proof.
  rewrite start_before_post.
  destruct (before_post w fuel st) as [[[]|e|] s1]; [|done..].
  pose proof (postTweet_cases w s1) as H. unfold bind.
  destruct (unsendable _); [by rewrite H|].
  destruct H as (s2 & -> & Hf & _). cbn [console_log modify].
  eexists. split; [reflexivity|]. by cbn.
Qed.

(** X9.  A run leaves [README.md] and [version.json] both written or
    leaves every file as it was.  When [start] returns, the two files
    are set from the lineage that [getVersions] returned.  When it ends
    in an exception or out of fuel, no file has changed, but for one
    case: an endpoint that [https.request] refuses makes the run throw
    after the files are written. *)
Theorem start_writes_both_or_nothing w fuel st :
  (fst (start w fuel st) = Ret tt ->
   exists l md,
     fst (getVersions w fuel st) = Ret l /\
     files (snd (start w fuel st)) =
       <["version.json" := Json (shift l)]> (<["README.md" := Text md]> (files st))) /\
  (files (snd (start w fuel st)) = files st \/
   exists l md,
     fst (getVersions w fuel st) = Ret l /\
     files (snd (start w fuel st)) =
       <["version.json" := Json (shift l)]> (<["README.md" := Text md]> (files st))) /\
  (fst (start w fuel st) <> Ret tt ->
   unsendable (TWEET_ENDPOINT (env w)) = false ->
   files (snd (start w fuel st)) = files st).
Proof.
  pose proof (before_post_cases w fuel st) as Hb.
  pose proof (start_after_before_post w fuel st) as Hs.
  destruct (getVersions w fuel st) as [[l|e|] st1].
  - destruct (completes l).
    + destruct (get_issues w issue_uri).
      * destruct Hb as (before & after & s1 & Hb & Hf). rewrite Hb in Hs.
        assert (exists l0 md,
                  Ret (A := list VSCode) l = Ret l0 /\
                  files s1 =
                    <["version.json" := Json (shift l0)]>
                      (<["README.md" := Text md]> (files st))) as Hw.
        { by exists l, (before +:+ table_head +:+ rows version_row l +:+ after). }
        destruct (unsendable _).
        -- rewrite Hs. cbn [fst snd]. split; [done|]. split; [by right|done].
        -- destruct Hs as (s2 & -> & Hf2). cbn [fst snd]. rewrite Hf2.
           split; [done|]. split; [by right|done].
      * destruct Hb as (s1 & Hb & Hf). rewrite Hb in Hs. rewrite Hs.
        split; [done|]. split; [by left|done].
    + destruct Hb as [Hb Hf]. rewrite Hb in Hs. rewrite Hs.
      split; [done|]. split; [by left|done].
  - destruct Hb as [Hb Hf]. rewrite Hb in Hs. rewrite Hs.
    split; [done|]. split; [by left|done].
  - destruct Hb as [Hb Hf]. rewrite Hb in Hs. rewrite Hs.
    split; [done|]. split; [by left|done].
Qed.

Lemma start_writes_both_or_nothing_witness :
  exists l md,
    fst (getVersions Sample.scenario 1 initial) = Ret l /\
    files (snd (start Sample.scenario 1 initial)) =
      <["version.json" := Json (shift l)]> (<["README.md" := Text md]> (files initial)).
Proof.
  apply (proj1 (start_writes_both_or_nothing Sample.scenario 1 initial)).
  by vm_compute.
Defined.



(** X11.  The tweet that a run has composed when it reaches [postTweet]
    is what it started from, then the sentence of the alert level of the
    lineage, then the count of open issues, then the link of the
    project. *)
Theorem tweet_of_run w fuel st s1 :
  before_post w fuel st = (Ret tt, s1) ->
  exists l r,
    fst (getVersions w fuel st) = Ret l /\
    get_issues w issue_uri = Some r /\
    tweet s1 =
      ((tweet st +:+ snd (banner (severity l))) +:+
       (Str.of_nat (length (items r)) +:+ " open issue(s) about Electron update. ")) +:+
      "https://github.com/Sneezry/vscode-version-watcher#vscode-version-watcher".
Proof.
  pose proof (keeps_tweet_getVersions w fuel st) as Ht.
  unfold before_post, bind at 1.
  destruct (getVersions w fuel st) as [[l|e|] st1]; [|done..]. cbn [snd] in Ht.
  destruct (completes l) eqn:Hc.
  - destruct (get_issues w issue_uri) as [r|] eqn:Hi.
    + destruct (saveToFile_ok w l st1 r Hc Hi) as (before & after & Hs).
      unfold bind. rewrite Hs. cbn [tweet_append modify]. intros [= <-].
      exists l, r. split; [done|]. split; [done|]. cbn [with_tweet tweet].
      by rewrite Ht.
    + unfold bind. by rewrite (saveToFile_no_issues w l st1 Hc Hi).
  - unfold bind. by rewrite (saveToFile_stalls w l st1 Hc).
Qed.

Lemma tweet_of_run_witness :
  exists l r,
    fst (getVersions Sample.scenario 1 initial) = Ret l /\
    get_issues Sample.scenario issue_uri = Some r /\
    tweet (snd (before_post Sample.scenario 1 initial)) =
      ((tweet initial +:+ snd (banner (severity l))) +:+
       (Str.of_nat (length (items r)) +:+ " open issue(s) about Electron update. ")) +:+
      "https://github.com/Sneezry/vscode-version-watcher#vscode-version-watcher".
Proof.
  apply (tweet_of_run Sample.scenario 1 initial).
  by vm_compute.
Defined.

(** ** Scraping *)

(** A lazy repetition stops at the first length its continuation accepts. *)
Lemma star_lazy_first p s : forall pos k res,
  star_lazy p pos s k = Some res ->
  exists u s',
    s = u +:+ s' /\ Str.all p u = true /\
    k (pos + String.length u) s' = Some res /\
    forall u1 u2, u = u1 +:+ u2 -> u2 <> "" ->
      k (pos + String.length u1) (u2 +:+ s') = None.
Proof.
  induction s as [|c s IH]; intros pos k res H; simpl in H.
  - destruct (k pos "") eqn:Hk; [|done]. injection H as ->.
    exists "", "". simpl. rewrite Nat.add_0_r. split; [done|]. split; [done|].
    split; [done|]. intros [|] [|]; done.
  - destruct (k pos (String c s)) eqn:Hk.
    + injection H as ->. exists "", (String c s). simpl. rewrite Nat.add_0_r.
      split; [done|]. split; [done|]. split; [done|]. intros [|] [|]; done.
    + destruct (p c) eqn:Hc; [|done].
      apply IH in H as (u & s' & -> & Hu & Hres & Hmin).
      exists (String c u), s'. simpl. rewrite Hc, Hu.
      rewrite <- Nat.add_succ_comm. split; [done|]. split; [done|].
      split; [done|]. intros [|x u1] u2 Hsplit Hne; simpl in *.
      * subst u2. simpl. by rewrite Nat.add_0_r.
      * injection Hsplit as -> ->. rewrite <- Nat.add_succ_comm. by apply Hmin.
Qed.

Lemma all_from_splits (P : ascii -> bool) u :
  (forall u1 c u2, u = u1 +:+ String c u2 -> P c = true) -> Str.all P u = true.
Proof.
  induction u as [|c u IH]; intros H; simpl; [done|].
  rewrite (H "" c u eq_refl), IH; [done|].
  intros u1 c' u2 ->. by apply (H (String c u1) c' u2).
Qed.

Lemma all_and (P Q : ascii -> bool) u :
  Str.all P u = true -> Str.all Q u = true ->
  Str.all (fun c => P c && Q c) u = true.
Proof.
  induction u as [|c u IH]; simpl; [done|].
  rewrite !andb_true_iff. intros [-> ?] [-> ?]. auto.
Qed.

Lemma take_drop n : forall s, Str.take n s +:+ Str.drop n s = s.
Proof.
  induction n as [|n IH]; intros [|c s]; simpl; try done. by rewrite IH.
Qed.

Lemma search_from_later r pre : forall pos s,
  is_Some (attempt r (pos + String.length pre) s) ->
  is_Some (search_from r pos (pre +:+ s)).
Proof.
  induction pre as [|c pre IH]; intros pos s H; simpl in *.
  - rewrite Nat.add_0_r in H. by apply search_from_here.
  - destruct (attempt r pos (String c (pre +:+ s))); [done|].
    apply IH. by rewrite Nat.add_succ_comm.
Qed.

Lemma exec_sound r text groups :
  exec r text = Some groups ->
  exists n res, attempt r n (Str.drop n text) = Some res /\ groups = m_caps res.
Proof.
  unfold exec. destruct (search_from r 0 text) as [[p st]|] eqn:H; [|done].
  intros [= <-]. apply search_from_sound in H as (n & -> & _ & H). by exists n, st.
Qed.

Lemma exec_complete r pre s :
  is_Some (attempt r (String.length pre) s) -> is_Some (exec r (pre +:+ s)).
Proof.
  intros H. apply (search_from_later r pre 0) in H. unfold exec.
  destruct H as [[p st] ->]. done.
Qed.

(** *** A quoted value after a keyword *)

Lemma quoted_attempt kw pos s res :
  attempt (quoted_after kw) pos s = Some res ->
  exists v post,
    s = kw +:+ Str.DQ +:+ v +:+ Str.DQ +:+ post /\
    m_caps res !! 1%nat = Some v /\ Str.all unquoted v = true.
Proof.
  unfold attempt, quoted_after. cbn [Seq]. rewrite run_Group, run_Cat. intros H.
  apply run_sound in H as (st1 & Hkw & H). apply Matches_Lit_eats in Hkw as (R1 & P1 & C1).
  cbn [m_rest m_pos m_caps] in R1, P1, C1.
  rewrite run_Cat in H. cbn [run] in H.
  destruct (m_rest st1) as [|x s2] eqn:R2; [done|].
  destruct (Ascii.eqb x Str.dq) eqn:Hx; [|done]. apply Ascii.eqb_eq in Hx as ->.
  apply star_lazy_first in H as (u & s3 & R3 & Hu & H & Hmin).
  cbn [m_rest m_pos m_caps step set_cap] in R3, H, Hmin.
  destruct s3 as [|y post]; [done|].
  destruct (Ascii.eqb y Str.dq) eqn:Hy; [|done]. apply Ascii.eqb_eq in Hy as ->.
  injection H as <-.
  exists u, post. split; [|split].
  - rewrite R1, R3. unfold Str.DQ. simpl. done.
  - cbn [m_caps set_cap step m_pos m_rest]. rewrite lookup_insert_ne by done.
    rewrite lookup_insert_eq. f_equal. rewrite R3.
    replace (S (m_pos st1 + String.length u) - S (m_pos st1)) with (String.length u) by lia.
    apply take_app.
  - apply all_and; [done|]. apply all_from_splits. intros u1 c u2 ->.
    specialize (Hmin u1 (String c u2) eq_refl ltac:(done)).
    simpl in Hmin.
    destruct (Ascii.eqb c Str.dq); [done|done].
Qed.

Lemma quoted_attempt_complete kw pos v post :
  Str.all dot v = true ->
  is_Some (attempt (quoted_after kw) pos (kw +:+ Str.DQ +:+ v +:+ Str.DQ +:+ post)).
Proof.
  intros Hv. unfold attempt, quoted_after. cbn [Seq]. rewrite run_Group, run_Cat.
  eapply (run_Lit_complete kw); [reflexivity|].
  rewrite run_Cat. eapply run_Char_complete; [reflexivity|]. cbv beta.
  rewrite run_Cat, run_Group. eapply run_Star_complete; [exact Hv|reflexivity|].
  rewrite run_Cat. eapply run_Char_complete; [reflexivity|]. by cbn.
Qed.

(** What scraping a quoted value comes to: a value found between the
    keyword with its opening quote and the next quote on the line, or
    nothing when the text has no such place. *)
Lemma quoted_exec kw text :
  match exec (quoted_after kw) text with
  | Some groups =>
      exists pre v post,
        text = pre +:+ kw +:+ Str.DQ +:+ v +:+ Str.DQ +:+ post /\
        groups !! 1%nat = Some v /\ Str.all unquoted v = true
  | None =>
      forall pre v post,
        Str.all dot v = true ->
        text <> pre +:+ kw +:+ Str.DQ +:+ v +:+ Str.DQ +:+ post
  end.
Proof.
  destruct (exec (quoted_after kw) text) as [groups|] eqn:H.
  - apply exec_sound in H as (n & res & Ha & ->).
    apply quoted_attempt in Ha as (v & post & Hs & Hg & Hv).
    exists (Str.take n text), v, post. split; [|done].
    by rewrite <- Hs, take_drop.
  - intros pre v post Hv ->.
    destruct (exec_complete (quoted_after kw) pre _
                (quoted_attempt_complete kw (String.length pre) v post Hv)) as [g Hg].
    congruence.
Qed.

(** X12.  The fallback of [getElectron].  A manifest that comes as
    [undefined] or [null] makes the property read throw a [TypeError]
    after the one request.  When the manifest gives no Electron version
    (none, or an empty one), the build configuration is requested next.
    If it comes as a text, the answer is what that text has between
    [target ], an opening quote and the next quote on the same line,
    and what the manifest gave when the text has no such place; if it
    comes as anything else, as an empty file does, the call of [match]
    throws a [TypeError]. *)
Theorem getElectron_fallback w v st :
  (get_package w (package_uri w v) = Some Nullish ->
   getElectron w v st = (Throw TypeError, issued [package_uri w v] st)) /\
  (forall pkg yarnc,
     get_package w (package_uri w v) = Some (Holds pkg) ->
     Str.truthy_opt (electronVersion pkg) = false ->
     get_yarnrc w (yarnrc_uri w v) = Some yarnc ->
     match yarnc with
     | IsText text =>
         exists r,
           getElectron w v st =
             (Ret r, issued [package_uri w v; yarnrc_uri w v] st) /\
           ((exists pre val post,
               text = pre +:+ "target " +:+ Str.DQ +:+ val +:+ Str.DQ +:+ post /\
               Str.all unquoted val = true /\ r = Some val) \/
            ((forall pre val post,
               Str.all dot val = true ->
               text <> pre +:+ "target " +:+ Str.DQ +:+ val +:+ Str.DQ +:+ post) /\
             r = electronVersion pkg))
     | NotText =>
         getElectron w v st =
           (Throw TypeError, issued [package_uri w v; yarnrc_uri w v] st)
     end).
Proof.
  unfold getElectron. fold (package_uri w v). fold (yarnrc_uri w v). split.
  - intros Hpkg. unfold bind at 1. by rewrite (request_ok _ _ _ _ Hpkg).
  - intros pkg yarnc Hpkg Hfalsy Hyarn.
    destruct yarnc as [text|]; unfold bind at 1;
      rewrite (request_ok _ _ _ _ Hpkg); unfold bind at 1;
      cbn [read_electronVersion ret]; rewrite Hfalsy; cbn [negb]; unfold bind at 1;
      rewrite (request_ok _ _ _ _ Hyarn), issued_issued; cbn [app]; [|done].
    unfold bind. cbn [yarnc_match ret].
    pose proof (quoted_exec "target " text) as H.
    change (quoted_after "target ") with Pat.target in H.
    destruct (exec Pat.target text) as [groups|].
    + destruct H as (pre & val & post & Ht & Hg & Hval).
      exists (groups !! 1%nat). split; [done|]. left. exists pre, val, post. done.
    + exists (electronVersion pkg). split; [done|]. by right.
Qed.

Lemma getElectron_fallback_witness :
  (exists r,
     getElectron Sample.scenario "1.3.0" initial =
       (Ret r, issued [package_uri Sample.scenario "1.3.0";
                       yarnrc_uri Sample.scenario "1.3.0"] initial) /\
     ((exists pre val post,
         Sample.yarnrc = pre +:+ "target " +:+ Str.DQ +:+ val +:+ Str.DQ +:+ post /\
         Str.all unquoted val = true /\ r = Some val) \/
      ((forall pre val post,
         Str.all dot val = true ->
         Sample.yarnrc <> pre +:+ "target " +:+ Str.DQ +:+ val +:+ Str.DQ +:+ post) /\
       r = None))) /\
  getElectron Sample2.empty_yarnrc "1.3.0" initial =
    (Throw TypeError, issued [package_uri Sample2.empty_yarnrc "1.3.0";
                              yarnrc_uri Sample2.empty_yarnrc "1.3.0"] initial).
Proof.
  split.
  - exact (proj2 (getElectron_fallback Sample.scenario "1.3.0" initial)
             {| electronVersion := None |} (IsText Sample.yarnrc)
             eq_refl eq_refl eq_refl).
  - exact (proj2 (getElectron_fallback Sample2.empty_yarnrc "1.3.0" initial)
             {| electronVersion := None |} NotText eq_refl eq_refl eq_refl).
Defined.

(** X13.  [getChromeVersion] answers with what the header has between
    [CHROME_VERSION_STRING ], an opening quote and the next quote on
    the same line, and with [undefined] when the header has no such
    place.  One request is issued either way. *)
Theorem getChromeVersion_scrapes w e st header :
  get_text w (chrome_uri w e) = Some header ->
  exists r,
    getChromeVersion w e st = (Ret r, issued [chrome_uri w e] st) /\
    ((exists pre val post,
        header = pre +:+ "CHROME_VERSION_STRING " +:+ Str.DQ +:+ val +:+ Str.DQ +:+ post /\
        Str.all unquoted val = true /\ r = Some val) \/
     ((forall pre val post,
        Str.all dot val = true ->
        header <> pre +:+ "CHROME_VERSION_STRING " +:+ Str.DQ +:+ val +:+ Str.DQ +:+ post) /\
      r = None)).
Proof.
  intros Htext. unfold getChromeVersion, bind. rewrite (request_ok _ _ _ _ Htext).
  pose proof (quoted_exec "CHROME_VERSION_STRING " header) as H.
  change (quoted_after "CHROME_VERSION_STRING ") with Pat.chrome_version in H.
  destruct (exec Pat.chrome_version header) as [groups|].
  - destruct H as (pre & val & post & Ht & Hg & Hval).
    exists (groups !! 1%nat). split; [done|]. left. exists pre, val, post. done.
  - exists None. split; [done|]. by right.
Qed.

Lemma getChromeVersion_scrapes_witness :
  exists r,
    getChromeVersion Sample.scenario (Some "2.1.0") initial =
      (Ret r, issued [chrome_uri Sample.scenario (Some "2.1.0")] initial) /\
    ((exists pre val post,
        Sample.yarnrc =
          pre +:+ "CHROME_VERSION_STRING " +:+ Str.DQ +:+ val +:+ Str.DQ +:+ post /\
        Str.all unquoted val = true /\ r = Some val) \/
     ((forall pre val post,
        Str.all dot val = true ->
        Sample.yarnrc <>
          pre +:+ "CHROME_VERSION_STRING " +:+ Str.DQ +:+ val +:+ Str.DQ +:+ post) /\
      r = None)).
Proof.
  exact (getChromeVersion_scrapes Sample.scenario (Some "2.1.0") initial Sample.yarnrc eq_refl).
Defined.

(** *** A number after a keyword *)

Lemma Matches_Plus_eats p st st' :
  Matches (Plus p) st st' ->
  exists u, u <> "" /\ Str.all p u = true /\ Eats u st st'.
Proof.
  intros (mid & (x & s' & Hx & Hr & ->) & (u & Hu & Hr' & Hp & Hc)).
  exists (String x u). split; [done|]. split; [simpl; by rewrite Hx, Hu|].
  cbn [step m_rest m_pos m_caps] in *. repeat split.
  - rewrite Hr, Hr'. done.
  - rewrite Hp. simpl. lia.
  - done.
Qed.

Lemma number_attempt kw pos s res :
  attempt (number_after kw) pos s = Some res ->
  exists v post,
    s = kw +:+ v +:+ post /\ m_caps res !! 1%nat = Some v /\ numeral v.
Proof.
  unfold attempt, number_after. cbn [Seq]. intros H.
  apply run_sound in H as (st' & Hm & [= <-]).
  destruct Hm as (mid0 & (mid1 & Hkw & (mid2 & (mid3 & Hnum & ->) & ->)) & ->).
  apply Matches_Lit_eats in Hkw as (R1 & P1 & C1).
  apply Matches_Plus_eats in Hnum as (u & Hne & Hu & R2 & P2 & C2).
  cbn [m_rest m_pos m_caps] in *.
  exists u, (m_rest mid3). split; [|split].
  - by rewrite R1, R2.
  - cbn [m_caps set_cap m_pos m_rest]. rewrite lookup_insert_ne by done.
    rewrite lookup_insert_eq. f_equal. rewrite R2, P2.
    replace (m_pos mid1 + String.length u - m_pos mid1) with (String.length u) by lia.
    apply take_app.
  - done.
Qed.

Lemma number_exec kw text groups :
  exec (number_after kw) text = Some groups ->
  exists v, groups !! 1%nat = Some v /\ numeral v /\ defines text kw v.
Proof.
  intros H. apply exec_sound in H as (n & res & Ha & ->).
  apply number_attempt in Ha as (v & post & Hs & Hg & Hv).
  exists v. split; [done|]. split; [done|].
  exists (Str.take n text), post. by rewrite <- Hs, take_drop.
Qed.

(** X14.  A Node.js version that [getNodeVersion] returns is three
    non-empty runs of digits joined by dots, each standing in the
    header of the referenced commit right after its keyword; two
    requests were issued for it, the submodule lookup and the header. *)
Theorem getNodeVersion_format w e st st' v :
  getNodeVersion w e st = (Ret (Some v), st') ->
  exists nodeSha header major minor patch,
    st' = issued [node_uri w e; node_header_uri w nodeSha] st /\
    get_text w (node_header_uri w nodeSha) = Some header /\
    v = major +:+ "." +:+ minor +:+ "." +:+ patch /\
    numeral major /\ numeral minor /\ numeral patch /\
    defines header "NODE_MAJOR_VERSION " major /\
    defines header "NODE_MINOR_VERSION " minor /\
    defines header "NODE_PATCH_VERSION " patch.
Proof.
  unfold getNodeVersion, bind. intros H.
  destruct (get_submodule w (node_uri w e)) as [sub|] eqn:Hsub.
  2: { by rewrite (request_fail _ _ _ Hsub) in H. }
  rewrite (request_ok _ _ _ _ Hsub) in H.
  destruct (sha sub) as [nodeSha|]; [|done].
  destruct (Str.truthy nodeSha); cbn [negb] in H; [|done].
  fold (node_header_uri w nodeSha) in H.
  destruct (get_text w (node_header_uri w nodeSha)) as [header|] eqn:Htext.
  2: { by rewrite (request_fail _ _ _ Htext) in H. }
  rewrite (request_ok _ _ _ _ Htext), issued_issued in H. cbn [app] in H.
  destruct (exec Pat.node_major header) as [g1|] eqn:H1; [|done].
  destruct (exec Pat.node_minor header) as [g2|] eqn:H2; [|done].
  destruct (exec Pat.node_patch header) as [g3|] eqn:H3; [|done].
  apply (number_exec "NODE_MAJOR_VERSION ") in H1 as (a & G1 & Ha & Da).
  apply (number_exec "NODE_MINOR_VERSION ") in H2 as (b & G2 & Hb & Db).
  apply (number_exec "NODE_PATCH_VERSION ") in H3 as (c & G3 & Hc & Dc).
  rewrite G1, G2, G3 in H. cbn [Str.interp] in H. injection H as <- <-. by exists nodeSha, header, a, b, c.
Qed.

Lemma getNodeVersion_format_witness :
  exists nodeSha header major minor patch,
    issued [node_uri Sample.scenario (Some "2.1.0");
            node_header_uri Sample.scenario "abc"] initial =
      issued [node_uri Sample.scenario (Some "2.1.0");
              node_header_uri Sample.scenario nodeSha] initial /\
    get_text Sample.scenario (node_header_uri Sample.scenario nodeSha) = Some header /\
    "10.1.0" = major +:+ "." +:+ minor +:+ "." +:+ patch /\
    numeral major /\ numeral minor /\ numeral patch /\
    defines header "NODE_MAJOR_VERSION " major /\
    defines header "NODE_MINOR_VERSION " minor /\
    defines header "NODE_PATCH_VERSION " patch.
Proof.
  apply (getNodeVersion_format Sample.scenario (Some "2.1.0") initial).
  by vm_compute.
Defined.

(** ** The tweet endpoint *)

(** A greedy repetition before a continuation that cannot fail takes
    all it can. *)
Lemma star_greedy_max p s : forall pos k res,
  (forall a b, is_Some (k a b)) ->
  star_greedy p pos s k = Some res ->
  exists u s',
    s = u +:+ s' /\ Str.all p u = true /\ k (pos + String.length u) s' = Some res /\
    (s' = "" \/ exists c s'', s' = String c s'' /\ p c = false).
Proof.
  induction s as [|c s IH]; intros pos k res Hk H; simpl in H.
  - exists "", "". simpl. rewrite Nat.add_0_r. auto.
  - destruct (p c) eqn:Hc.
    + destruct (star_greedy_complete p "" s (S pos) k eq_refl) as [r Hr].
      { apply Hk. }
      simpl in Hr. rewrite Hr in H. injection H as ->.
      apply IH in Hr as (u & s' & -> & Hu & Hres & Hend); [|done].
      exists (String c u), s'. simpl. rewrite Hc, Hu, <- Nat.add_succ_comm. done.
    + exists "", (String c s). simpl. rewrite Nat.add_0_r.
      repeat split; try done. right. by exists c, s.
Qed.

Lemma endpoint_attempt pos s res :
  attempt Pat.endpoint pos s = Some res ->
  exists h p post,
    s = "://" +:+ h +:+ ":443" +:+ p +:+ post /\
    m_caps res !! 1%nat = Some h /\ m_caps res !! 2%nat = Some p /\
    Str.all dot h = true /\ Str.all dot p = true /\ line_end post /\
    forall h1 h2 x, h = h1 +:+ h2 -> h2 <> "" ->
      h2 +:+ ":443" +:+ p +:+ post <> ":443" +:+ x.
Proof.
  unfold attempt, Pat.endpoint. cbn [Seq]. rewrite run_Group, run_Cat. intros H.
  apply run_sound in H as (st1 & Hkw & H). apply Matches_Lit_eats in Hkw as (R1 & P1 & C1).
  cbn [m_rest m_pos m_caps] in R1, P1, C1.
  rewrite run_Cat, run_Group in H. cbn [run] in H.
  apply star_lazy_first in H as (h & s2 & R2 & Hh & H & Hmin).
  cbn [m_rest m_pos m_caps step set_cap] in R2, H, Hmin.
  apply run_sound in H as (st2 & Hlit & H).
  apply Matches_Lit_eats in Hlit as (R3 & P3 & C3).
  cbn [m_rest m_pos m_caps set_cap] in R3, P3, C3.
  apply star_greedy_max in H as (p & post & R4 & Hp & H & Hend); [|done].
  injection H as <-.
  exists h, p, post. repeat split.
  - by rewrite R1, R2, R3, R4.
  - cbn [m_caps set_cap m_pos m_rest]. rewrite !lookup_insert_ne by done.
    rewrite C3, lookup_insert_eq. f_equal. rewrite R2.
    replace (m_pos st1 + String.length h - m_pos st1) with (String.length h) by lia.
    apply take_app.
  - cbn [m_caps set_cap m_pos m_rest]. rewrite lookup_insert_ne by done.
    rewrite lookup_insert_eq. f_equal. rewrite R4.
    replace (m_pos st2 + String.length p - m_pos st2) with (String.length p) by lia.
    apply take_app.
  - done.
  - done.
  - done.
  - intros h1 h2 x -> Hne Hx. specialize (Hmin h1 h2 eq_refl Hne).
    rewrite R3, R4, Hx in Hmin.
    eapply (is_Some_None (A := mstate)). rewrite <- Hmin.
    eapply (run_Lit_complete ":443"); [reflexivity|]. cbv beta.
    apply (star_greedy_complete dot "" x); done.
Qed.

Lemma endpoint_attempt_complete pos h post :
  Str.all dot h = true ->
  is_Some (attempt Pat.endpoint pos ("://" +:+ h +:+ ":443" +:+ post)).
Proof.
  intros Hh. unfold attempt, Pat.endpoint. cbn [Seq]. rewrite run_Group, run_Cat.
  eapply (run_Lit_complete "://"); [reflexivity|].
  rewrite run_Cat, run_Group. eapply run_Star_complete; [exact Hh|reflexivity|].
  rewrite run_Cat. eapply (run_Lit_complete ":443"); [reflexivity|].
  rewrite run_Cat, run_Group. eapply (run_Star_complete true dot ""); [done|reflexivity|].
  by cbn.
Qed.

(** X15.  What [postTweet] does with an endpoint that is set.  An
    endpoint without [://], a host on one line and [:443] is reported
    on the console and nothing is posted.  Otherwise the host is what
    is written between a [://] and the nearest [:443] after it on the
    same line, and the path is the rest of the line.  If the path has
    no character at or below the blank and the host none that a header
    does not take, the request is made to that host and path and
    carries the tweet and its length; if not, [https.request] throws a
    [TypeError] and nothing is posted. *)
Theorem postTweet_endpoint w st ep :
  TWEET_ENDPOINT (env w) = Some ep ->
  ep <> "" ->
  (exists pre h p post,
     ep = pre +:+ "://" +:+ h +:+ ":443" +:+ p +:+ post /\
     Str.all dot h = true /\ Str.all dot p = true /\ line_end post /\
     (forall h1 h2 x, h = h1 +:+ h2 -> h2 <> "" ->
        h2 +:+ ":443" +:+ p +:+ post <> ":443" +:+ x) /\
     postTweet w st =
       if Str.all path_char p && Str.all header_char h
       then (Ret tt,
             with_posts (fun ps => ps ++
               [{| hostname := h; path := p;
                   content_length := String.length (tweet st);
                   written := tweet st |}]) st)
       else (Throw TypeError, st)) \/
  ((forall pre h post,
      Str.all dot h = true -> ep <> pre +:+ "://" +:+ h +:+ ":443" +:+ post) /\
   postTweet w st =
     (Ret tt,
      with_console (fun c => c ++ ["Tweet endpoint does not match the rule."]) st)).
Proof.
  intros Hep Hne. unfold postTweet. rewrite Hep.
  apply truthy_iff in Hne. rewrite Hne. cbn [negb].
  destruct (exec Pat.endpoint ep) as [groups|] eqn:H.
  - left. apply exec_sound in H as (n & res & Ha & ->).
    apply endpoint_attempt in Ha as (h & p & post & Hs & G1 & G2 & Hh & Hp & Hend & Hmin).
    exists (Str.take n ep), h, p, post. rewrite <- Hs, take_drop, G1, G2.
    cbn [Str.interp]. unfold bind, get_state, https_request.
    repeat split; try done.
    by destruct (Str.all path_char p && Str.all header_char h).
  - right. split; [|done]. intros pre h post Hh ->.
    destruct (exec_complete Pat.endpoint pre _
                (endpoint_attempt_complete (String.length pre) h post Hh)) as [g Hg].
    congruence.
Qed.

Lemma postTweet_endpoint_witness :
  (exists pre h p post,
     "https://tweets.example.org:443/api/post" =
       pre +:+ "://" +:+ h +:+ ":443" +:+ p +:+ post /\
     Str.all dot h = true /\ Str.all dot p = true /\ line_end post /\
     (forall h1 h2 x, h = h1 +:+ h2 -> h2 <> "" ->
        h2 +:+ ":443" +:+ p +:+ post <> ":443" +:+ x) /\
     postTweet Sample2.with_tweets initial =
       if Str.all path_char p && Str.all header_char h
       then (Ret tt,
             with_posts (fun ps => ps ++
               [{| hostname := h; path := p;
                   content_length := String.length (tweet initial);
                   written := tweet initial |}]) initial)
       else (Throw TypeError, initial)) /\
  postTweet Sample2.with_tweets initial =
    (Ret tt,
     with_posts (fun ps => ps ++
       [{| hostname := "tweets.example.org"; path := "/api/post";
           content_length := 15; written := "#VSCodeWatcher " |}]) initial).
Proof.
  split; [|by vm_compute].
  destruct (postTweet_endpoint Sample2.with_tweets initial
              "https://tweets.example.org:443/api/post" eq_refl ltac:(done))
    as [H|[_ H]]; [exact H|].
  exfalso. vm_compute in H. discriminate H.
Defined.

(** ** The time stamp of the report *)

Lemma star_greedy_all p u : forall pos k,
  Str.all p u = true -> is_Some (k (pos + String.length u) "") ->
  star_greedy p pos u k = k (pos + String.length u) "".
Proof.
  induction u as [|c u IH]; intros pos k Hu Hk; simpl in *.
  - by rewrite Nat.add_0_r.
  - apply andb_true_iff in Hu as [-> Hu]. rewrite <- Nat.add_succ_comm in *.
    rewrite (IH _ _ Hu Hk). by destruct Hk as [r ->].
Qed.

Lemma date_noise_plain c s pos :
  stamp_char c = true -> attempt Pat.date_noise pos (String c s) = None.
Proof.
  unfold stamp_char. rewrite andb_true_iff, !negb_true_iff. intros [HT Hd].
  unfold attempt. cbn. by rewrite HT, Hd.
Qed.

Lemma replace_go_plain by_ s : forall fuel pos rest,
  Str.all stamp_char s = true ->
  replace_go (String.length s + fuel) Pat.date_noise by_ pos (s +:+ rest) =
  s +:+ replace_go fuel Pat.date_noise by_ (pos + String.length s) rest.
Proof.
  induction s as [|c s IH]; intros fuel pos rest Hs.
  - simpl. by rewrite Nat.add_0_r.
  - simpl in Hs. apply andb_true_iff in Hs as [Hc Hs].
    cbn [String.length Nat.add replace_go]. change (String c s +:+ rest) with (String c (s +:+ rest)).
    rewrite (date_noise_plain _ _ _ Hc), (IH _ _ _ Hs), <- Nat.add_succ_comm. done.
Qed.

Lemma replace_go_T by_ fuel pos rest :
  replace_go (S fuel) Pat.date_noise by_ pos (String "T" rest) =
  by_ +:+ replace_go fuel Pat.date_noise by_ (S pos) rest.
Proof.
  cbn [replace_go]. unfold attempt at 1.
  cbn [run Pat.date_noise m_rest m_pos set_cap step Ascii.eqb Bool.eqb].
  replace (Nat.eqb (S pos) pos) with false by (symmetry; apply Nat.eqb_neq; lia).
  done.
Qed.

Lemma replace_go_fraction by_ fuel pos f :
  Str.all dot f = true ->
  replace_go (S (S fuel)) Pat.date_noise by_ pos (String "." f) = by_.
Proof.
  intros Hf. cbn [replace_go]. unfold attempt at 1.
  cbn [run Pat.date_noise m_rest m_pos m_caps set_cap step Ascii.eqb Bool.eqb].
  rewrite (star_greedy_all dot f) by (done || by eexists).
  cbn [m_pos m_rest set_cap].
  replace (Nat.eqb (S pos + String.length f) pos) with false
    by (symmetry; apply Nat.eqb_neq; lia).
  unfold attempt. cbn. apply app_empty_r.
Qed.

Lemma timestamp d h f :
  Str.all stamp_char d = true -> Str.all stamp_char h = true -> Str.all dot f = true ->
  replace_all Pat.date_noise " " (d +:+ "T" +:+ h +:+ "." +:+ f) = d +:+ " " +:+ h +:+ " ".
Proof.
  intros Hd Hh Hf. unfold replace_all. rewrite !app_length_str.
  replace (S (String.length d + (String.length "T" + (String.length h +
             (String.length "." + String.length f)))))
    with (String.length d + (S (String.length h + (S (S (String.length f))))))
    by (simpl; lia).
  rewrite (replace_go_plain _ _ _ _ _ Hd). f_equal.
  change ("T" +:+ h +:+ "." +:+ f) with (String "T" (h +:+ "." +:+ f)).
  rewrite replace_go_T. f_equal.
  rewrite (replace_go_plain _ _ _ _ _ Hh). f_equal.
  change ("." +:+ f) with (String "." f).
  by apply replace_go_fraction.
Qed.

Lemma saveToFile_report w l st r :
  completes l = true -> get_issues w issue_uri = Some r ->
  exists before after,
    files (snd (saveToFile w l st)) !! "README.md" =
      Some (Text (before +:+ "Last update: " +:+
                  (Regex.replace_all Pat.date_noise " " (now w) +:+ "GMT") +:+ after)).
Proof.
  intros Hc Hi. unfold saveToFile, bind.
  rewrite alertLevel_verdict, (completes_verdict _ Hc).
  cbn [tweet_append modify]. unfold getIssues, bind.
  rewrite (request_ok _ _ _ _ Hi). cbn [tweet_append modify writeFileSync ret].
  rewrite !fold_rows.
  exists (("# VSCode Version Watcher" +:+ Str.NL +:+ Str.NL +:+
           "Follow on Twitter [@VscodeW](https://twitter.com/VscodeW)!" +:+
           Str.NL +:+ Str.NL) +:+ fst (banner (severity l))).
  exists (Str.NL +:+ Str.NL +:+ table_head +:+ rows version_row l +:+
          (Str.NL +:+ Str.NL +:+ "## Open Issue About Electron Update" +:+
           Str.NL +:+ Str.NL +:+ "| Title | Creator | Create | Update |" +:+
           Str.NL +:+ "| :---:| :-----: | :----: | :----: |" +:+ Str.NL) +:+
          rows issue_row (items r)).
  unfold issued, with_requests, with_tweet, with_files.
  unfold writeFileSync, modify, with_files.
  cbn [requests console tweet files posts snd].
  rewrite lookup_insert_ne by done. rewrite lookup_insert_eq.
  rewrite !app_assoc_str. reflexivity.
Qed.

(** X16.  The time stamp of the report.  When the clock reads a date,
    [T], a time, a dot and a fraction, the report that [saveToFile]
    writes says [Last update: ] followed by the date, a blank, the
    time, a blank and [GMT]: the [T] has become a blank and the
    fraction with its dot another. *)
Theorem report_timestamp w l st d h f :
  now w = d +:+ "T" +:+ h +:+ "." +:+ f ->
  Str.all stamp_char d = true -> Str.all stamp_char h = true -> Str.all dot f = true ->
  fst (saveToFile w l st) = Ret tt ->
  exists md,
    files (snd (saveToFile w l st)) !! "README.md" = Some (Text md) /\
    defines md "Last update: " (d +:+ " " +:+ h +:+ " GMT").
Proof.
  intros Hnow Hd Hh Hf Hret.
  destruct (completes l) eqn:Hc.
  2: { by rewrite (saveToFile_stalls w l st Hc) in Hret. }
  destruct (get_issues w issue_uri) as [r|] eqn:Hi.
  2: { by rewrite (saveToFile_no_issues w l st Hc Hi) in Hret. }
  destruct (saveToFile_report w l st r Hc Hi) as (before & after & ->).
  eexists. split; [done|]. exists before, after.
  rewrite Hnow, (timestamp d h f Hd Hh Hf), !app_assoc_str. reflexivity.
Qed.

Lemma report_timestamp_witness :
  exists md,
    files (snd (saveToFile Sample.scenario [Sample.latest; Sample.release_1_2_0] initial))
      !! "README.md" = Some (Text md) /\
    defines md "Last update: " ("2018-10-01" +:+ " " +:+ "12:34:56" +:+ " GMT").
Proof.
  apply (report_timestamp Sample.scenario [Sample.latest; Sample.release_1_2_0] initial
           "2018-10-01" "12:34:56" "789Z"); by vm_compute.
Defined.

(** ** The first version of the program *)

Lemma IndexTs_resolve_named w v st tag st' :
  IndexTs.resolve w v st = (Ret tag, st') -> vscode tag = v.
Proof.
  unfold IndexTs.resolve, bind. cbn [console_log modify].
  destruct (getElectron w v _) as [[e|err|] st1]; [|done..].
  destruct (getChromeVersion w e st1) as [[c|err|] st2]; [|done..].
  destruct (getNodeVersion w e st2) as [[n|err|] st3]; [|done..].
  by intros [= <- _].
Qed.

Lemma IndexTs_versions_loop_shape w cached vs : forall acc st l st',
  IndexTs.versions_loop w vs cached acc st = (Ret l, st') ->
  exists fresh,
    l = acc ++ fresh /\
    map vscode fresh = List.filter (fun v => negb (bool_decide (v ∈ cached))) vs.
Proof.
  induction vs as [|v vs IH]; intros acc st l st' H; simpl in H.
  - injection H as <- <-. exists []. by rewrite app_nil_r.
  - simpl. rewrite <- indexOf_elem_of.
    destruct (0 <=? indexOf cached v)%Z; simpl; [by eapply IH|].
    unfold bind in H.
    destruct (IndexTs.resolve w v st) as [[tag|e|] st1] eqn:Hr; [|done..].
    apply IH in H as (fresh & -> & Hn). exists (tag :: fresh).
    split; [by rewrite <- app_assoc|]. simpl.
    by rewrite (IndexTs_resolve_named _ _ _ _ _ Hr), Hn.
Qed.

Lemma IndexTs_fetch_ret w fuel st tags st' :
  IndexTs.fetchVSCodeVersion w fuel st = (Ret tags, st') -> Forall SemVerTag tags.
Proof.
  unfold IndexTs.fetchVSCodeVersion, bind.
  destruct (githubRequest w fuel (tags_uri w) st) as [[res|e|] st1]; [|done..].
  intros [= <- _]. rewrite push_tags_filter. simpl.
  apply Forall_forall. intros t Ht.
  apply list_elem_of_In, filter_In in Ht as [_ Ht]. by apply tag_rejects.
Qed.

(** X17.  The lineage of the first version of the program.  What its
    [getVersions] returns is a run of fresh entries followed by the
    cached lineage; the fresh entries are one for each tag that is a
    well-formed version and not the name of a cached entry, in the
    order of the tags and under the tag's own name. *)
Theorem IndexTs_getVersions_shape w fuel st l st' :
  IndexTs.getVersions w fuel st = (Ret l, st') ->
  exists tags st1 fresh,
    IndexTs.fetchVSCodeVersion w fuel st = (Ret tags, st1) /\
    Forall SemVerTag tags /\
    l = fresh ++ VERSION w /\
    map vscode fresh = uncached (VERSION w) tags.
Proof.
  unfold IndexTs.getVersions, bind at 1.
  destruct (IndexTs.fetchVSCodeVersion w fuel st) as [[tags|e|] st1] eqn:Hf; [|done..].
  unfold bind. rewrite cached_names. simpl.
  destruct (IndexTs.versions_loop w tags _ [] st1) as [[fresh|e|] st2] eqn:Hl; [|done..].
  intros [= <- <-]. apply IndexTs_versions_loop_shape in Hl as (fresh' & -> & Hn).
  exists tags, st1, fresh'. split; [done|]. split; [by eapply IndexTs_fetch_ret|]. done.
Qed.

Lemma IndexTs_getVersions_shape_witness :
  exists tags st1 fresh,
    IndexTs.fetchVSCodeVersion Sample.paged 3 initial = (Ret tags, st1) /\
    Forall SemVerTag tags /\
    [ {| vscode := "1.3.0"; electron := Some "2.1.0"; node := Some "10.1.0";
         chrome := Some "71.0" |};
      {| vscode := "1.1.0-insiders"; electron := Some "2.1.0"; node := Some "10.1.0";
         chrome := Some "71.0" |};
      Sample.release_1_2_0 ] = fresh ++ VERSION Sample.paged /\
    map vscode fresh = uncached (VERSION Sample.paged) tags.
Proof.
  apply (IndexTs_getVersions_shape Sample.paged 3 initial _
           (snd (IndexTs.getVersions Sample.paged 3 initial))).
  by vm_compute.
Defined.


